(** * Email organizer: rule engine and mailbox fetcher

    A shallow embedding of [scripts/gmail_rules_processor.py] and
    [gmail_fetch.py], with the properties of the rule evaluation engine, of
    the action dispatcher and of the fetcher.

    Conventions of the embedding:
    - a Python [str] is the [string] of the bytes of its UTF-8 encoding:
      equality, [in] and [startswith] on the characters are equality,
      containment and prefix on these bytes, and [str.split] is written on
      them, with the separators that Unicode adds to those of ASCII;
    - [str.lower] and [int] are parameters, [lower] and [int]: the first
      depends on the case tables of Unicode, the second on its tables of
      digits and on the limit that the interpreter puts on the number of
      digits. [ascii_lower] and [ascii_int] are what they compute on ASCII
      text, and are what the scenarios use;
    - a Python [int] is a [Z];
    - a [timedelta] is its integer number of microseconds, built by
      [timedelta_days], which fails outside the range of the type; an aware
      [datetime] is its number of microseconds since the epoch;
    - a call that can raise returns a [result], whose [Raise] carries the
      exception;
    - the wall clock is a sequence of readings, [clock k] being what the
      k-th call of [datetime.now(timezone.utc)] returns, and the number of
      readings done so far is threaded through the evaluator;
    - [datetime.fromisoformat] and [dateutil.parser.parse] are parameters;
    - the Gmail service is a state of the provider with the requests that
      the scripts send to it; the dispatcher threads that state and the log,
      also through an exception that is caught;
    - [validate_call(validate_return=True)] is written out where a value
      can fail the check: the argument and the value returned by
      [get_or_create_label];
    - the rules file is its decoded JSON content, and the models [Rule],
      [Action] and [RuleSet] check it member by member;
    - the table [emails] of the database is the list of its rows in the
      order of their row ids. *)

From Stdlib Require Import ZArith List String Ascii Bool Lia.
Import ListNotations.

Local Open Scope string_scope.
Local Open Scope Z_scope.

(** ** Python values and built-ins *)

Module Py.

(** The byte is an ASCII character. *)
Definition is_ascii_char (c : ascii) : bool := (nat_of_ascii c <? 128)%nat.

(** The text has ASCII characters only. *)
Fixpoint is_ascii (s : string) : bool :=
  match s with
  | EmptyString => true
  | String c s' => is_ascii_char c && is_ascii s'
  end.

(** [str.lower] on one ASCII character. *)
Definition ascii_lower_char (c : ascii) : ascii :=
  let n := nat_of_ascii c in
  if ((65 <=? n) && (n <=? 90))%nat then ascii_of_nat (n + 32) else c.

(** [s.lower()] for a text [s] of ASCII characters. *)
Fixpoint ascii_lower (s : string) : string :=
  match s with
  | EmptyString => EmptyString
  | String c s' => String (ascii_lower_char c) (ascii_lower s')
  end.

(** [s.startswith(p)] *)
Fixpoint startswith (s p : string) {struct p} : bool :=
  match p with
  | EmptyString => true
  | String a p' =>
      match s with
      | EmptyString => false
      | String b s' => Ascii.eqb a b && startswith s' p'
      end
  end.

(** [needle in hay] on two strings: [needle] starts at some position of
    [hay]. *)
Fixpoint contains (needle hay : string) : bool :=
  startswith hay needle ||
  match hay with
  | EmptyString => false
  | String _ hay' => contains needle hay'
  end.

(** The ASCII characters that [str.split()] separates on: U+0009 to
    U+000D and U+001C to U+0020. *)
Definition is_space (c : ascii) : bool :=
  let n := nat_of_ascii c in
  (((9 <=? n) && (n <=? 13)) || ((28 <=? n) && (n <=? 32)))%nat.

(** The separators of two bytes: U+0085 and U+00A0. *)
Definition is_space2 (c d : ascii) : bool :=
  let m := nat_of_ascii d in
  ((nat_of_ascii c =? 194) && ((m =? 133) || (m =? 160)))%nat.

(** The separators of three bytes: U+1680, U+2000 to U+200A, U+2028,
    U+2029, U+202F, U+205F and U+3000. *)
Definition is_space3 (c d e : ascii) : bool :=
  let l := nat_of_ascii c in
  let m := nat_of_ascii d in
  let n := nat_of_ascii e in
  (((l =? 225) && (m =? 154) && (n =? 128)) ||
   ((l =? 226) && (m =? 128) &&
    (((128 <=? n) && (n <=? 138)) || (n =? 168) || (n =? 169) || (n =? 175))) ||
   ((l =? 226) && (m =? 129) && (n =? 159)) ||
   ((l =? 227) && (m =? 128) && (n =? 128)))%nat.

Definition is_empty (s : string) : bool :=
  match s with EmptyString => true | _ => false end.

(** The word read so far ends: it is kept unless it is empty. *)
Definition flush (cur : string) (words : list string) : list string :=
  if is_empty cur then words else cur :: words.

(** [split_from cur s]: the words of [s], [cur] being the word read so
    far. *)
Fixpoint split_from (cur s : string) : list string :=
  match s with
  | EmptyString => flush cur []
  | String c s1 =>
      if is_space c then flush cur (split_from EmptyString s1)
      else
        match s1 with
        | String d s2 =>
            if is_space2 c d then flush cur (split_from EmptyString s2)
            else
              match s2 with
              | String e s3 =>
                  if is_space3 c d e then
                    flush cur (split_from EmptyString s3)
                  else split_from (cur ++ String c EmptyString) s1
              | EmptyString => split_from (cur ++ String c EmptyString) s1
              end
        | EmptyString => split_from (cur ++ String c EmptyString) s1
        end
  end.

(** [s.split()]: the maximal runs of characters that are not
    separators. *)
Definition split (s : string) : list string := split_from EmptyString s.

Definition is_digit (c : ascii) : bool :=
  let n := nat_of_ascii c in ((48 <=? n) && (n <=? 57))%nat.

Definition digit_value (c : ascii) : Z := Z.of_nat (nat_of_ascii c) - 48.

(** The digits after a first one, with [acc] the value read so far; an
    underscore is accepted between two digits. *)
Fixpoint int_digits (acc : Z) (s : string) : option Z :=
  match s with
  | EmptyString => Some acc
  | String c s' =>
      if is_digit c then int_digits (10 * acc + digit_value c) s'
      else if Ascii.eqb c "_" then
        match s' with
        | String d s'' =>
            if is_digit d then int_digits (10 * acc + digit_value d) s''
            else None
        | EmptyString => None
        end
      else None
  end.

Definition int_unsigned (s : string) : option Z :=
  match s with
  | String c s' => if is_digit c then int_digits (digit_value c) s' else None
  | EmptyString => None
  end.

(** The number of digits of the text. *)
Fixpoint count_digits (s : string) : nat :=
  match s with
  | EmptyString => O
  | String c s' => ((if is_digit c then 1 else 0) + count_digits s')%nat
  end.

(** [int(s)] for a word [s] of ASCII characters: an optional sign and
    decimal digits, at most 4300 of them; [None] is [ValueError]. *)
Definition ascii_int (s : string) : option Z :=
  if (4300 <? count_digits s)%nat then None
  else
    match s with
    | String "+" s' => int_unsigned s'
    | String "-" s' => option_map Z.opp (int_unsigned s')
    | _ => int_unsigned s
    end.

(** [l[:n]] for a list [l] and an integer [n]: a negative [n] counts from
    the end. *)
Definition slice_to {A} (l : list A) (n : Z) : list A :=
  if 0 <=? n then firstn (Z.to_nat n) l
  else firstn (Z.to_nat (Z.of_nat (List.length l) + n)) l.

(** A [datetime] is aware (it has a UTC offset, and denotes an instant)
    or naive (a wall time without offset). *)
Inductive datetime : Type :=
| Aware (instant_us : Z)
| Naive (wall_us : Z).

(** The microseconds of [n] days. *)
Definition days (n : Z) : Z := n * 86400000000.

(** [timedelta(days=n)]: [None] is the [OverflowError] of a number of days
    beyond 999999999 in absolute value. *)
Definition timedelta_days (n : Z) : option Z :=
  if (-999999999 <=? n) && (n <=? 999999999) then Some (days n) else None.

(** [a - b] on two datetimes: [TypeError] ([None]) when exactly one of
    them is naive. *)
Definition datetime_sub (a b : datetime) : option Z :=
  match a, b with
  | Aware x, Aware y => Some (x - y)
  | Naive x, Naive y => Some (x - y)
  | _, _ => None
  end.

(** A continuation byte of UTF-8. *)
Definition is_cont (c : ascii) : bool :=
  let n := nat_of_ascii c in ((128 <=? n) && (n <=? 191))%nat.

(** The second byte that may follow the first byte [n] of a character of
    three or four bytes: overlong forms, surrogates and code points beyond
    U+10FFFF are excluded. *)
Definition second_byte (n : nat) (d : ascii) : bool :=
  let m := nat_of_ascii d in
  (if n =? 224 then (160 <=? m) && (m <=? 191)
   else if n =? 237 then (128 <=? m) && (m <=? 159)
   else if n =? 240 then (144 <=? m) && (m <=? 191)
   else if n =? 244 then (128 <=? m) && (m <=? 143)
   else is_cont d)%nat.

(** The bytes are the UTF-8 encoding of a text. *)
Fixpoint valid_utf8 (s : string) : bool :=
  match s with
  | EmptyString => true
  | String c s1 =>
      let n := nat_of_ascii c in
      if (n <? 128)%nat then valid_utf8 s1
      else if ((194 <=? n) && (n <=? 223))%nat then
        match s1 with
        | String d s2 => is_cont d && valid_utf8 s2
        | EmptyString => false
        end
      else if ((224 <=? n) && (n <=? 239))%nat then
        match s1 with
        | String d (String e s3) =>
            second_byte n d && is_cont e && valid_utf8 s3
        | _ => false
        end
      else if ((240 <=? n) && (n <=? 244))%nat then
        match s1 with
        | String d (String e (String f s4)) =>
            second_byte n d && is_cont e && is_cont f && valid_utf8 s4
        | _ => false
        end
      else false
  end.

(** [b.decode()] for bytes [b]: the text they encode, if any. *)
Definition decode (b : string) : option string :=
  if valid_utf8 b then Some b else None.

(** The outcome of a call: a value, or a raised exception. *)
Inductive result (E A : Type) : Type :=
| Ok (a : A)
| Raise (e : E).
Arguments Ok {E A} a.
Arguments Raise {E A} e.

Definition bind {E A B} (m : result E A) (k : A -> result E B) : result E B :=
  match m with
  | Ok a => k a
  | Raise e => Raise e
  end.

Definition is_raise {E A} (m : result E A) : bool :=
  match m with Raise _ => true | Ok _ => false end.

End Py.

(** ** The emails table of the SQLite database *)

Module Sqlite.

(** What a column of a row holds, as [sqlite3] returns it: [None] for
    [NULL], an [int], a [float] (given by its 64 bits), a [str] or
    [bytes]. *)
Inductive value : Type :=
| Null
| Integer (n : Z)
| Real (bits : Z)
| Text (s : string)
| Blob (b : string).

(** A row is the tuple of its columns; a table is its rows in the order of
    their row ids, which is the order of [SELECT *]. *)
Definition row : Type := list value.
Definition table : Type := list row.

(** Two values that a [PRIMARY KEY] holds to be the same key: a text is
    the same key as an equal text only, and [NULL] is the same as no key.
    The column [message_id] has the affinity [TEXT]: the numbers written to
    it are stored as texts. *)
Definition same_key (a b : value) : bool :=
  match a, b with
  | Text x, Text y => String.eqb x y
  | Integer x, Integer y => Z.eqb x y
  | Blob x, Blob y => String.eqb x y
  | _, _ => false
  end.

(** The rows clash when their first columns, the primary key, are the same
    key. *)
Definition clash (r r' : row) : bool :=
  match r, r' with
  | k :: _, k' :: _ => same_key k k'
  | _, _ => false
  end.

(** [INSERT OR REPLACE]: the row that clashes with the new one is deleted
    and the new row receives the next row id. *)
Definition insert_or_replace (r : row) (t : table) : table :=
  (filter (fun r' => negb (clash r r')) t ++ [r])%list.

End Sqlite.

(** ** scripts/gmail_rules_processor.py *)

Module GmailRulesProcessor.
Import Py.

Inductive FieldName : Type :=
| SENDER | RECIPIENT | SUBJECT | MESSAGE | RECEIVED_TIME.

Inductive StringPredicate : Type :=
| CONTAINS | DOES_NOT_CONTAIN | EQUALS | DOES_NOT_EQUAL.

Inductive DatePredicate : Type :=
| IS_LESS_THAN | IS_GREATER_THAN.

Inductive RulePredicate : Type :=
| ALL | ANY.

Inductive ActionType : Type :=
| MARK_AS_READ | MARK_AS_UNREAD | MOVE_TO_MAILBOX.

(** [Union[StringPredicate, DatePredicate]] *)
Inductive Predicate : Type :=
| StringP (p : StringPredicate)
| DateP (p : DatePredicate).

Record Rule : Type := mkRule {
  field_name : FieldName;
  predicate : Predicate;
  value : string
}.

(** [folder_name] defaults to [None]. *)
Record Action : Type := mkAction {
  action_type : ActionType;
  folder_name : option string
}.

Record RuleSet : Type := mkRuleSet {
  rules : list Rule;
  rule_predicate : RulePredicate;
  actions : list Action
}.

Record Email : Type := mkEmail {
  message_id : string;
  sender : string;
  recipient : string;
  message : string;
  received_time : string;
  subject : string
}.

(** The values of the enumerations, as pydantic reads them from the rules
    document. *)
Definition FieldName_of_value (s : string) : option FieldName :=
  if String.eqb s "sender" then Some SENDER
  else if String.eqb s "recipient" then Some RECIPIENT
  else if String.eqb s "subject" then Some SUBJECT
  else if String.eqb s "message" then Some MESSAGE
  else if String.eqb s "received_time" then Some RECEIVED_TIME
  else None.

Definition Predicate_of_value (s : string) : option Predicate :=
  if String.eqb s "contains" then Some (StringP CONTAINS)
  else if String.eqb s "does not contain" then Some (StringP DOES_NOT_CONTAIN)
  else if String.eqb s "equals" then Some (StringP EQUALS)
  else if String.eqb s "does not equal" then Some (StringP DOES_NOT_EQUAL)
  else if String.eqb s "is less than" then Some (DateP IS_LESS_THAN)
  else if String.eqb s "is greater than" then Some (DateP IS_GREATER_THAN)
  else None.

Definition FieldName_value (f : FieldName) : string :=
  match f with
  | SENDER => "sender"
  | RECIPIENT => "recipient"
  | SUBJECT => "subject"
  | MESSAGE => "message"
  | RECEIVED_TIME => "received_time"
  end.

Definition Predicate_value (p : Predicate) : string :=
  match p with
  | StringP CONTAINS => "contains"
  | StringP DOES_NOT_CONTAIN => "does not contain"
  | StringP EQUALS => "equals"
  | StringP DOES_NOT_EQUAL => "does not equal"
  | DateP IS_LESS_THAN => "is less than"
  | DateP IS_GREATER_THAN => "is greater than"
  end.

(** What the scripts can raise. The [ValueError]s carry what their
    message is built from. *)
Inductive exn : Type :=
| ValueError_string_predicate (p : Predicate)
| ValueError_date_predicate (p : Predicate)
| ValueError_time_unit (unit : string)
| ValueError_isoformat (s : string)
| ValueError_int (s : string)
| IndexError
| TypeError
| OverflowError
| KeyError (key : string)
| ValidationError
| HttpError (reason : string).

(** The exceptions of class [ValueError]. *)
Definition is_ValueError (e : exn) : bool :=
  match e with
  | ValueError_string_predicate _ | ValueError_date_predicate _
  | ValueError_time_unit _ | ValueError_isoformat _ | ValueError_int _ => true
  | _ => false
  end.

(** The model [Rule] applied to the three members of a rule of the rules
    document: each member is checked on its own against its type. *)
Definition Rule_validate (f p v : string) : result exn Rule :=
  match FieldName_of_value f, Predicate_of_value p with
  | Some f', Some p' => Ok (mkRule f' p' v)
  | _, _ => Raise ValidationError
  end.

(** [getattr(email, rule.field_name)] *)
Definition getattr (email : Email) (f : FieldName) : string :=
  match f with
  | SENDER => sender email
  | RECIPIENT => recipient email
  | SUBJECT => subject email
  | MESSAGE => message email
  | RECEIVED_TIME => received_time email
  end.

(** [evaluate_string_rule]; [lower] is [str.lower]. *)
Definition evaluate_string_rule (lower : string -> string) (rule : Rule)
           (field_value : string) : result exn bool :=
  match predicate rule with
  | StringP CONTAINS =>
      Ok (contains (lower (value rule)) (lower field_value))
  | StringP DOES_NOT_CONTAIN =>
      Ok (negb (contains (lower (value rule)) (lower field_value)))
  | StringP EQUALS =>
      Ok (String.eqb (lower (value rule)) (lower field_value))
  | StringP DOES_NOT_EQUAL =>
      Ok (negb (String.eqb (lower (value rule)) (lower field_value)))
  | p => Raise (ValueError_string_predicate p)
  end.

(** [timedelta(days=n)] *)
Definition timedelta (n : Z) : result exn Z :=
  match timedelta_days n with
  | Some delta => Ok delta
  | None => Raise OverflowError
  end.

(** Lines 107 to 116 of [evaluate_date_rule]: the threshold that the
    comparand stands for; [int] is Python's [int] on a text, [None] being
    its [ValueError]. *)
Definition parse_delta (int : string -> option Z) (value : string)
  : result exn Z :=
  let value_parts := split value in
  match nth_error value_parts 0 with
  | None => Raise IndexError
  | Some word =>
      match int word with
      | None => Raise (ValueError_int word)
      | Some amount =>
          match nth_error value_parts 1 with
          | None => Raise IndexError
          | Some unit =>
              if startswith unit "day" then timedelta amount
              else if startswith unit "month" then timedelta (amount * 30)
              else Raise (ValueError_time_unit unit)
          end
      end
  end.

(** A computation that reads the clock: from the number of readings done
    so far to an outcome and the number of readings done after it. *)
Definition timed (A : Type) : Type := nat -> result exn (A * nat).

Definition ret {A} (a : A) : timed A := fun t => Ok (a, t).

Definition tbind {A B} (m : timed A) (k : A -> timed B) : timed B :=
  fun t => match m t with
           | Ok (a, t') => k a t'
           | Raise e => Raise e
           end.

Definition lift {A} (r : result exn A) : timed A :=
  fun t => match r with Ok a => Ok (a, t) | Raise e => Raise e end.

Definition raise {A} (e : exn) : timed A := fun _ => Raise e.

Declare Scope timed_scope.
Delimit Scope timed_scope with timed.
Notation "x <- m ;; k" := (tbind m (fun x => k))
  (at level 61, m at next level, right associativity) : timed_scope.

(** [[f(x) for x in l]]: the calls are made in the order of the list and
    the first exception ends the comprehension. *)
Fixpoint comprehension {A B} (f : A -> timed B) (l : list A)
  : timed (list B) :=
  match l with
  | [] => ret []
  | x :: l' =>
      (y <- f x ;; ys <- comprehension f l' ;; ret (y :: ys))%timed
  end.

(** [all(results)] and [any(results)] *)
Definition all (results : list bool) : bool := forallb (fun b => b) results.
Definition any (results : list bool) : bool := existsb (fun b => b) results.

Section Evaluator.

(** [str.lower] *)
Variable lower : string -> string.

(** [int] on a text; [None] is its [ValueError]. *)
Variable int : string -> option Z.

(** [datetime.fromisoformat]; [None] is its [ValueError]. *)
Variable fromisoformat : string -> option datetime.

(** The readings of the wall clock, in microseconds since the epoch. *)
Variable clock : nat -> Z.

(** [datetime.now(timezone.utc)] *)
Definition datetime_now : timed datetime :=
  fun t => Ok (Aware (clock t), S t).

(** [evaluate_date_rule] *)
Definition evaluate_date_rule (rule : Rule) (field_value : string)
  : timed bool :=
  match fromisoformat field_value with
  | None => raise (ValueError_isoformat field_value)
  | Some email_date =>
      (current_date <- datetime_now ;;
       delta <- lift (parse_delta int (value rule)) ;;
       match predicate rule with
       | DateP IS_LESS_THAN =>
           match datetime_sub current_date email_date with
           | Some age => ret (age <? delta)
           | None => raise TypeError
           end
       | DateP IS_GREATER_THAN =>
           match datetime_sub current_date email_date with
           | Some age => ret (age >? delta)
           | None => raise TypeError
           end
       | p => raise (ValueError_date_predicate p)
       end)%timed
  end.

(** [evaluate_rule] *)
Definition evaluate_rule (rule : Rule) (email : Email) : timed bool :=
  let field_value := getattr email (field_name rule) in
  match field_name rule with
  | RECEIVED_TIME => evaluate_date_rule rule field_value
  | _ => lift (evaluate_string_rule lower rule field_value)
  end.

(** [apply_rules] *)
Definition apply_rules (ruleset : RuleSet) (email : Email)
  : timed (list Action) :=
  (results <- comprehension (fun rule => evaluate_rule rule email)
                            (rules ruleset) ;;
   match rule_predicate ruleset with
   | ALL => if all results then ret (actions ruleset) else ret []
   | ANY => if any results then ret (actions ruleset) else ret []
   end)%timed.

End Evaluator.

(** *** The action dispatcher *)

(** A label of the mailbox: [label["id"]] and [label["name"]]. *)
Record Label : Type := mkLabel {
  label_id : string;
  label_name : string
}.

(** The body of a [messages().modify] request: its one member. *)
Inductive ModifyBody : Type :=
| addLabelIds (ids : list string)
| removeLabelIds (ids : list string).

(** What the module logger receives. *)
Inductive log_record : Type :=
| log_info (msg : string)
| log_error_label (e : exn).

Section Dispatcher.

(** The Gmail service: a state of the provider and the three requests
    the dispatcher sends, each one [.execute()]d against that state.
    The response of [labels().list] is the value of its ["labels"]
    member, [None] when the response has no such member. *)
Variable provider : Type.
Variable labels_list :
  provider -> result exn (option (list Label)) * provider.
Variable labels_create :
  string -> provider -> result exn Label * provider.
Variable messages_modify :
  string -> ModifyBody -> provider -> result exn unit * provider.

(** The provider and the log. *)
Definition world : Type := (provider * list log_record)%type.

Definition io (A : Type) : Type := world -> result exn A * world.

Definition io_ret {A} (a : A) : io A := fun w => (Ok a, w).

Definition io_bind {A B} (m : io A) (k : A -> io B) : io B :=
  fun w => match m w with
           | (Ok a, w') => k a w'
           | (Raise e, w') => (Raise e, w')
           end.

Definition io_raise {A} (e : exn) : io A := fun w => (Raise e, w).

(** [try: m except Exception as e: h(e)] *)
Definition io_try {A} (m : io A) (h : exn -> io A) : io A :=
  fun w => match m w with
           | (Ok a, w') => (Ok a, w')
           | (Raise e, w') => h e w'
           end.

Definition call {A} (request : provider -> result exn A * provider)
  : io A :=
  fun w => let (r, p') := request (fst w) in (r, (p', snd w)).

Definition log (r : log_record) : io unit :=
  fun w => (Ok tt, (fst w, (snd w ++ [r])%list)).

Notation "x <- m ;; k" := (io_bind m (fun x => k))
  (at level 61, m at next level, right associativity).

(** The first label of the list with the given name. *)
Fixpoint find_label (labels : list Label) (name : string)
  : option string :=
  match labels with
  | [] => None
  | label :: labels' =>
      if String.eqb (label_name label) name then Some (label_id label)
      else find_label labels' name
  end.

(** The body of [get_or_create_label]; the value [None] is Python's
    [None]. *)
Definition get_or_create_label_body (name : string)
  : io (option string) :=
  io_try
    (labels <- call labels_list ;;
     match labels with
     | None => io_raise (KeyError "labels")
     | Some labels =>
         match find_label labels name with
         | Some id => io_ret (Some id)
         | None =>
             label <- call (labels_create name) ;;
             io_ret (Some (label_id label))
         end
     end)
    (fun e => _ <- log (log_error_label e) ;; io_ret None).

(** [get_or_create_label] as decorated with
    [validate_call(validate_return=True)]: the argument [label_name] and
    the returned value are both checked to be a [str]. *)
Definition get_or_create_label (name : option string) : io string :=
  match name with
  | None => io_raise ValidationError
  | Some name =>
      r <- get_or_create_label_body name ;;
      match r with
      | Some id => io_ret id
      | None => io_raise ValidationError
      end
  end.

(** One turn of the loop of [execute_actions]. *)
Definition execute_action (email : Email) (action : Action) : io unit :=
  match action_type action with
  | MARK_AS_READ =>
      call (messages_modify (message_id email) (removeLabelIds ["UNREAD"]))
  | MARK_AS_UNREAD =>
      call (messages_modify (message_id email) (addLabelIds ["UNREAD"]))
  | MOVE_TO_MAILBOX =>
      id <- get_or_create_label (folder_name action) ;;
      call (messages_modify (message_id email) (addLabelIds [id]))
  end.

Fixpoint for_each (email : Email) (actions : list Action) : io unit :=
  match actions with
  | [] => io_ret tt
  | action :: actions' =>
      _ <- execute_action email action ;; for_each email actions'
  end.

(** [execute_actions] *)
Definition execute_actions (email : Email) (actions : list Action)
  : io unit :=
  _ <- log (log_info "Executing actions") ;; for_each email actions.

End Dispatcher.

(** *** The rules document *)

Definition RulePredicate_of_value (s : string) : option RulePredicate :=
  if String.eqb s "all" then Some ALL
  else if String.eqb s "any" then Some ANY
  else None.

Definition RulePredicate_value (p : RulePredicate) : string :=
  match p with ALL => "all" | ANY => "any" end.

Definition ActionType_of_value (s : string) : option ActionType :=
  if String.eqb s "mark_as_read" then Some MARK_AS_READ
  else if String.eqb s "mark_as_unread" then Some MARK_AS_UNREAD
  else if String.eqb s "move_to_mailbox" then Some MOVE_TO_MAILBOX
  else None.

Definition ActionType_value (a : ActionType) : string :=
  match a with
  | MARK_AS_READ => "mark_as_read"
  | MARK_AS_UNREAD => "mark_as_unread"
  | MOVE_TO_MAILBOX => "move_to_mailbox"
  end.

(** What [json.load] returns: an object is the [dict] of its members, each
    key once. Numbers are kept as integers; no model has a numeric
    field. *)
#[warnings="-register-all"] Inductive json : Type :=
| JNull
| JBool (b : bool)
| JNumber (n : Z)
| JString (s : string)
| JArray (items : list json)
| JObject (members : list (string * json)).

(** The member of a [dict] with the given key. *)
Fixpoint member (key : string) (members : list (string * json))
  : option json :=
  match members with
  | [] => None
  | (k, v) :: members' =>
      if String.eqb k key then Some v else member key members'
  end.

(** A required field of type [str]. *)
Definition str_field (key : string) (members : list (string * json))
  : option string :=
  match member key members with
  | Some (JString s) => Some s
  | _ => None
  end.

(** A field of type [List[...]]: every item is checked. *)
Fixpoint list_items {A} (item : json -> result exn A) (items : list json)
  : result exn (list A) :=
  match items with
  | [] => Ok []
  | j :: items' =>
      match item j, list_items item items' with
      | Ok a, Ok l => Ok (a :: l)
      | _, _ => Raise ValidationError
      end
  end.

(** The model [Rule] on an item of ["rules"]. *)
Definition Rule_of_json (j : json) : result exn Rule :=
  match j with
  | JObject members =>
      match str_field "field_name" members, str_field "predicate" members,
            str_field "value" members with
      | Some f, Some p, Some v => Rule_validate f p v
      | _, _, _ => Raise ValidationError
      end
  | _ => Raise ValidationError
  end.

(** The model [Action] on an item of ["actions"]: [folder_name] may be
    absent, and is a [str] when it is present. *)
Definition Action_of_json (j : json) : result exn Action :=
  match j with
  | JObject members =>
      match str_field "action_type" members with
      | Some a =>
          match ActionType_of_value a, member "folder_name" members with
          | Some a', None => Ok (mkAction a' None)
          | Some a', Some (JString s) => Ok (mkAction a' (Some s))
          | _, _ => Raise ValidationError
          end
      | None => Raise ValidationError
      end
  | _ => Raise ValidationError
  end.

(** [load_rules] on the decoded content of the rules file: the model
    [RuleSet] on the members of [data], which has to be a [dict]. *)
Definition load_rules (data : json) : result exn RuleSet :=
  match data with
  | JObject members =>
      match member "rules" members, str_field "rule_predicate" members,
            member "actions" members with
      | Some (JArray rs), Some p, Some (JArray acts) =>
          match list_items Rule_of_json rs, RulePredicate_of_value p,
                list_items Action_of_json acts with
          | Ok rs', Some p', Ok acts' => Ok (mkRuleSet rs' p' acts')
          | _, _, _ => Raise ValidationError
          end
      | _, _, _ => Raise ValidationError
      end
  | _ => Raise TypeError
  end.

(** *** The stored emails *)

(** A field of type [str] of the model [Email]: a [str] is taken as it
    is and [bytes] are decoded; nothing else is accepted. *)
Definition text_of (v : Sqlite.value) : option string :=
  match v with
  | Sqlite.Text s => Some s
  | Sqlite.Blob b => decode b
  | _ => None
  end.

(** One turn of the loop of [get_emails_from_db]: the six columns are
    read, then the model checks them. *)
Definition Email_of_row (row : Sqlite.row) : result exn Email :=
  match row with
  | c0 :: c1 :: c2 :: c3 :: c4 :: c5 :: _ =>
      match text_of c0, text_of c1, text_of c2, text_of c3, text_of c4,
            text_of c5 with
      | Some id, Some s, Some r, Some m, Some t, Some subj =>
          Ok (mkEmail id s r m t subj)
      | _, _, _, _, _, _ => Raise ValidationError
      end
  | _ => Raise IndexError
  end.

(** [get_emails_from_db] on the rows of the table [emails]. *)
Fixpoint get_emails_from_db (rows : Sqlite.table) : result exn (list Email) :=
  match rows with
  | [] => Ok []
  | row :: rows' =>
      bind (Email_of_row row) (fun email =>
      bind (get_emails_from_db rows') (fun emails =>
      Ok (email :: emails)))
  end.

(** *** The batch *)

Section Main.

Variable lower : string -> string.
Variable int : string -> option Z.
Variable fromisoformat : string -> option datetime.
Variable clock : nat -> Z.
Variable provider : Type.
Variable labels_list :
  provider -> result exn (option (list Label)) * provider.
Variable labels_create :
  string -> provider -> result exn Label * provider.
Variable messages_modify :
  string -> ModifyBody -> provider -> result exn unit * provider.

(** The loop of [main]: it returns the number of readings of the clock
    when it ends, or the exception that ended it, and the provider and the
    log as it leaves them. *)
Fixpoint process (ruleset : RuleSet) (emails : list Email) (t : nat)
         (w : world provider) : result exn nat * world provider :=
  match emails with
  | [] => (Ok t, w)
  | email :: emails' =>
      match apply_rules lower int fromisoformat clock ruleset email t with
      | Raise e => (Raise e, w)
      | Ok (actions_to_execute, t') =>
          match actions_to_execute with
          | [] => process ruleset emails' t' w
          | _ :: _ =>
              match execute_actions provider labels_list labels_create
                      messages_modify email actions_to_execute w with
              | (Ok _, w') => process ruleset emails' t' w'
              | (Raise e, w') => (Raise e, w')
              end
          end
      end
  end.

(** [main] on the decoded rules file, on the rows of the table and on the
    service that [get_gmail_service] returns. *)
Definition main (data : json) (rows : Sqlite.table) (t : nat)
           (w : world provider) : result exn nat * world provider :=
  match load_rules data with
  | Raise e => (Raise e, w)
  | Ok ruleset =>
      match get_emails_from_db rows with
      | Raise e => (Raise e, w)
      | Ok emails => process ruleset emails t w
      end
  end.

End Main.

End GmailRulesProcessor.

(** ** gmail_fetch.py *)

Module GmailFetch.
Import Py.

Record Email : Type := mkEmail {
  message_id : string;
  sender : string;
  recipient : string;
  message : string;
  received_time : datetime;
  subject : string
}.

(** What [fetch_emails] can raise. [StopIteration] is what a service with
    a fixed sequence of answers raises when it is asked once more. *)
Inductive exn : Type :=
| KeyError (key : string)
| IndexError
| ParserError (s : string)
| HttpError (reason : string)
| StopIteration.

(** The response of [messages().list]: the ids of its ["messages"] member
    and its ["nextPageToken"] member, each one possibly absent. *)
Record ListResponse : Type := mkListResponse {
  messages : option (list string);
  nextPageToken : option string
}.

Record Header : Type := mkHeader {
  name : string;
  value : string
}.

(** A ["body"] member, with its ["data"] member when it has one. *)
Record Body : Type := mkBody {
  data : option string
}.

Record Payload : Type := mkPayload {
  headers : list Header;
  parts : option (list Body);
  body : Body
}.

(** The response of [messages().get]. *)
Record Message : Type := mkMessage {
  id : string;
  payload : Payload
}.

(** The four values that the loop over the headers updates. *)
Record Envelope : Type := mkEnvelope {
  env_sender : string;
  env_subject : string;
  env_recipient : string;
  env_date : string
}.

Definition unknown : Envelope :=
  mkEnvelope "Unknown sender" "Unknown subject" "Unknown recipient"
             "Sat, 1 Jan 2000 00:00:00 +0000".

(** One turn of the loop over the headers; [lower] is [str.lower]. *)
Definition read_header (lower : string -> string) (env : Envelope)
           (header : Header) : Envelope :=
  let header_name := lower (name header) in
  let header_value := value header in
  if String.eqb header_name "from" then
    mkEnvelope header_value (env_subject env) (env_recipient env) (env_date env)
  else if String.eqb header_name "subject" then
    mkEnvelope (env_sender env) header_value (env_recipient env) (env_date env)
  else if String.eqb header_name "date" then
    mkEnvelope (env_sender env) (env_subject env) (env_recipient env)
        header_value
  else if String.eqb header_name "to" then
    mkEnvelope (env_sender env) (env_subject env) header_value (env_date env)
  else env.

Notation "x <- m ;; k" := (bind m (fun x => k))
  (at level 61, m at next level, right associativity).

(** [body["data"]] *)
Definition body_data (b : Body) : result exn string :=
  match data b with
  | Some d => Ok d
  | None => Raise (KeyError "data")
  end.

(** [results.get("messages", [])] *)
Definition get_messages (results : ListResponse) : list string :=
  match messages results with
  | Some l => l
  | None => []
  end.

Section Fetch.

(** [str.lower] *)
Variable lower : string -> string.

(** The service: what [messages().get(id=...)] answers, and
    [dateutil.parser.parse], whose error is [None]. *)
Variable messages_get : string -> result exn Message.
Variable parse : string -> option datetime.

(** The [while] loop: [pages] holds the answers that the service gives
    to the coming list requests. *)
Fixpoint fetch_pages (pages : list (result exn ListResponse))
         (results : ListResponse) (msgs : list string) (max_emails : Z)
  : result exn (list string) :=
  match nextPageToken results with
  | Some page_token =>
      if Z.of_nat (List.length msgs) <? max_emails then
        match pages with
        | [] => Raise StopIteration
        | page :: pages' =>
            results' <- page ;;
            fetch_pages pages' results' (msgs ++ get_messages results')%list
                        max_emails
        end
      else Ok msgs
  | None => Ok msgs
  end.

(** One turn of the [for] loop over the messages. *)
Definition fetch_email (message_ref : string) : result exn Email :=
  msg <- messages_get message_ref ;;
  let env := fold_left (read_header lower) (headers (payload msg)) unknown in
  match parse (env_date env) with
  | None => Raise (ParserError (env_date env))
  | Some received =>
      message_body <-
        match parts (payload msg) with
        | Some ps =>
            match ps with
            | p :: _ => body_data p
            | [] => Raise IndexError
            end
        | None => body_data (body (payload msg))
        end ;;
      Ok (mkEmail (id msg) (env_sender env) (env_recipient env)
                  message_body received (env_subject env))
  end.

Fixpoint fetch_each (msgs : list string) : result exn (list Email) :=
  match msgs with
  | [] => Ok []
  | m :: msgs' =>
      email <- fetch_email m ;;
      emails <- fetch_each msgs' ;;
      Ok (email :: emails)
  end.

(** [fetch_emails]: [responses] are the answers of the service to the
    successive [messages().list] requests. *)
Definition fetch_emails (responses : list (result exn ListResponse))
           (max_emails : Z) : result exn (list Email) :=
  match responses with
  | [] => Raise StopIteration
  | first :: pages =>
      results <- first ;;
      msgs <- fetch_pages pages results (get_messages results) max_emails ;;
      fetch_each (slice_to msgs max_emails)
  end.

End Fetch.

(** The row that [save_to_sqlite] writes for an email; [isoformat] is
    [datetime.isoformat]. *)
Definition row_of (isoformat : datetime -> string) (email : Email)
  : Sqlite.row :=
  [ Sqlite.Text (message_id email);
    Sqlite.Text (sender email);
    Sqlite.Text (recipient email);
    Sqlite.Text (message email);
    Sqlite.Text (isoformat (received_time email));
    Sqlite.Text (subject email) ].

(** [save_to_sqlite]: [db] is the table [emails] of the database, [None]
    when the database has no such table yet. *)
Definition save_to_sqlite (isoformat : datetime -> string)
           (emails : list Email) (db : option Sqlite.table) : Sqlite.table :=
  fold_left (fun t email => Sqlite.insert_or_replace (row_of isoformat email) t)
            emails
            (match db with Some t => t | None => [] end).

(** [main]: the table is written only when the fetch has returned. *)
Definition main (lower : string -> string)
           (messages_get : string -> result exn Message)
           (parse : string -> option datetime)
           (isoformat : datetime -> string)
           (responses : list (result exn ListResponse)) (max_emails : Z)
           (db : option Sqlite.table) : result exn Sqlite.table :=
  bind (fetch_emails lower messages_get parse responses max_emails)
       (fun emails => Ok (save_to_sqlite isoformat emails db)).

End GmailFetch.

(** ** Vocabulary of the properties *)

Module RuleSpec.
Import Py GmailRulesProcessor.

(** The fields that hold text. *)
Definition is_text_field (f : FieldName) : bool :=
  match f with RECEIVED_TIME => false | _ => true end.

(** [evaluations lower int fromisoformat clock email rs t bs t']:
    evaluated one after the other from the clock reading [t] on, the rules
    [rs] return the booleans [bs], and the clock has then been read up to
    [t']. *)
Inductive evaluations (lower : string -> string) (int : string -> option Z)
          (fromisoformat : string -> option datetime)
          (clock : nat -> Z) (email : Email)
  : list Rule -> nat -> list bool -> nat -> Prop :=
| evaluations_nil (t : nat) :
    evaluations lower int fromisoformat clock email [] t [] t
| evaluations_cons (r : Rule) (rs : list Rule) (t t1 t2 : nat)
                   (b : bool) (bs : list bool) :
    evaluate_rule lower int fromisoformat clock r email t = Ok (b, t1) ->
    evaluations lower int fromisoformat clock email rs t1 bs t2 ->
    evaluations lower int fromisoformat clock email (r :: rs) t (b :: bs) t2.

(** The comparand has a unit word, and that word starts neither with
    "day" nor with "month". *)
Definition unrecognized_unit (value : string) : bool :=
  match nth_error (split value) 1 with
  | Some unit => negb (startswith unit "day" || startswith unit "month")
  | None => false
  end.

(** A rule whose kind its evaluator does not know, or a date rule whose
    unit is not recognized. *)
Definition malformed (r : Rule) : bool :=
  match field_name r, predicate r with
  | RECEIVED_TIME, StringP _ => true
  | RECEIVED_TIME, DateP _ => unrecognized_unit (value r)
  | _, DateP _ => true
  | _, StringP _ => false
  end.

(** The exceptions that a rule of the rule set is the cause of: a kind
    that its evaluator does not know, and a comparand without amount or
    unit, with an amount that is no integer or is beyond the range of
    [timedelta], or with a unit that is not recognized. The other
    exceptions of the evaluator come from the stamp of the email. *)
Definition is_configuration_error (e : exn) : bool :=
  match e with
  | ValueError_string_predicate _ | ValueError_date_predicate _
  | ValueError_time_unit _ | ValueError_int _
  | IndexError | OverflowError => true
  | _ => false
  end.

(** What is known of [str.lower] on ASCII text: it is [ascii_lower]. *)
Definition lowers_ascii (lower : string -> string) : Prop :=
  forall s, is_ascii s = true -> lower s = ascii_lower s.

(** What is known of [str.lower] on the empty text: the lower-casing of
    a text is empty exactly when the text is. *)
Definition lowers_empty (lower : string -> string) : Prop :=
  forall s, lower s = "" <-> s = "".

(** The outcome of a timed computation, without the clock. *)
Definition outcome {A} (r : result exn (A * nat)) : result exn A :=
  match r with
  | Ok (a, _) => Ok a
  | Raise e => Raise e
  end.

End RuleSpec.

(** ** Scenarios *)

Module Scenarios.
Import Py GmailRulesProcessor.

Definition sample_ruleset : RuleSet :=
  mkRuleSet
    [ mkRule SENDER (StringP CONTAINS) "example.com";
      mkRule SUBJECT (StringP CONTAINS) "important" ]
    ALL
    [ mkAction MARK_AS_READ None;
      mkAction MOVE_TO_MAILBOX (Some "Important") ].

Definition sample_email : Email :=
  mkEmail "123" "sender@example.com" "recipient@test.com"
          "Hello, this is the message body."
          "2023-01-01T12:00:00+00:00"
          "This is an important email".

Definition non_matching_email : Email :=
  mkEmail "456" "sender@other.com" "recipient@test.com"
          "Hello, this is the message body."
          "2023-01-01T12:00:00+00:00"
          "unimportant".

(** [datetime.fromisoformat] on the stamps of the scenarios. *)
Definition sample_fromisoformat (s : string) : option datetime :=
  if String.eqb s "2023-01-01T12:00:00+00:00" then
    Some (Aware 1672574400000000)
  else if String.eqb s "2023-01-01T12:00:00" then
    Some (Naive 1672574400000000)
  else None.

(** A clock that starts five days after the stamp of [sample_email] and
    advances by a millisecond at each reading. *)
Definition sample_clock (k : nat) : Z :=
  1672574400000000 + days 5 + 1000 * Z.of_nat k.

(** A clock that starts exactly five days after the stamp. *)
Definition five_days_clock (k : nat) : Z :=
  1672574400000000 + days 5.

(** An email whose stamp has no offset. *)
Definition naive_stamp_email : Email :=
  mkEmail "321" "sender@example.com" "recipient@test.com"
          "Hello, this is the message body."
          "2023-01-01T12:00:00"
          "This is an important email".

(** A rule on the age, then a rule that pairs a text field with a date
    kind. *)
Definition age_then_malformed : RuleSet :=
  mkRuleSet
    [ mkRule RECEIVED_TIME (DateP IS_LESS_THAN) "7 days";
      mkRule SUBJECT (DateP IS_LESS_THAN) "7 days" ]
    ALL
    [ mkAction MARK_AS_READ None ].

(** A rule set of mode [any] whose first rule holds of [sample_email] and
    whose second rule pairs a text field with a date kind. *)
Definition decided_then_malformed : RuleSet :=
  mkRuleSet
    [ mkRule SENDER (StringP CONTAINS) "example.com";
      mkRule SUBJECT (DateP IS_LESS_THAN) "7 days" ]
    ANY
    [ mkAction MARK_AS_READ None ].

(** A service that records the requests it receives. *)
Inductive request : Type :=
| labels_list_request
| labels_create_request (name : string)
| messages_modify_request (id : string) (body : ModifyBody).

(** The listing of the labels fails. *)
Definition failing_labels_list (p : list request)
  : result exn (option (list Label)) * list request :=
  (Raise (HttpError "backendError"), (p ++ [labels_list_request])%list).

(** The listing of the labels answers with the system label only. *)
Definition inbox_labels_list (p : list request)
  : result exn (option (list Label)) * list request :=
  (Ok (Some [mkLabel "INBOX" "INBOX"]), (p ++ [labels_list_request])%list).

Definition recording_labels_create (name : string) (p : list request)
  : result exn Label * list request :=
  (Ok (mkLabel ("Label_" ++ name) name),
   (p ++ [labels_create_request name])%list).

Definition recording_messages_modify (id : string) (body : ModifyBody)
           (p : list request) : result exn unit * list request :=
  (Ok tt, (p ++ [messages_modify_request id body])%list).

(** A move to a mailbox, then a mark as read. *)
Definition move_then_mark : list Action :=
  [ mkAction MOVE_TO_MAILBOX (Some "Important");
    mkAction MARK_AS_READ None ].

(** The service of the tests of the fetcher: every message has the same
    four headers and a body. *)
Definition sample_messages_get (id : string)
  : result GmailFetch.exn GmailFetch.Message :=
  Ok (GmailFetch.mkMessage id
        (GmailFetch.mkPayload
           [ GmailFetch.mkHeader "From" "sender@example.com";
             GmailFetch.mkHeader "To" "recipient@example.com";
             GmailFetch.mkHeader "Subject" "Test Subject";
             GmailFetch.mkHeader "Date" "Mon, 1 Jan 2023 12:00:00 +0000" ]
           None
           (GmailFetch.mkBody (Some "Test message body")))).

Definition sample_parse (s : string) : option datetime :=
  if String.eqb s "Mon, 1 Jan 2023 12:00:00 +0000" then
    Some (Aware 1672574400000000)
  else None.

(** One page of three messages and no further page. *)
Definition three_messages
  : list (result GmailFetch.exn GmailFetch.ListResponse) :=
  [ Ok (GmailFetch.mkListResponse (Some ["msg0"; "msg1"; "msg2"]) None) ].

(** Two pages of one message each. *)
Definition two_pages
  : list (result GmailFetch.exn GmailFetch.ListResponse) :=
  [ Ok (GmailFetch.mkListResponse (Some ["msg1"]) (Some "token1"));
    Ok (GmailFetch.mkListResponse (Some ["msg2"]) None) ].

End Scenarios.

(** ** Vocabulary and scenarios for the loader, the batch and the store *)

Module Notions.
Import Py GmailRulesProcessor.

(** The document of a rule, of an action and of a rule set: the members
    that the models read, with the values of the enumerations; the folder
    name is written only when the action has one. *)
Definition Rule_document (r : Rule) : json :=
  JObject [ ("field_name", JString (FieldName_value (field_name r)));
            ("predicate", JString (Predicate_value (predicate r)));
            ("value", JString (value r)) ].

Definition Action_document (a : Action) : json :=
  JObject (("action_type", JString (ActionType_value (action_type a))) ::
           match folder_name a with
           | Some s => [ ("folder_name", JString s) ]
           | None => []
           end).

Definition RuleSet_document (rs : RuleSet) : json :=
  JObject [ ("rules", JArray (map Rule_document (rules rs)));
            ("rule_predicate",
             JString (RulePredicate_value (rule_predicate rs)));
            ("actions", JArray (map Action_document (actions rs))) ].


(** The rules on [received_time]. *)
Definition date_rules (rs : list Rule) : list Rule :=
  filter (fun r => negb (RuleSpec.is_text_field (field_name r))) rs.

(** The actions that mark, as opposed to the moves. *)
Definition is_mark (a : Action) : bool :=
  match action_type a with
  | MOVE_TO_MAILBOX => false
  | _ => true
  end.

(** The header has the given name, whatever the case of its letters. *)
Definition header_named (lower : string -> string) (n : string)
           (h : GmailFetch.Header) : bool :=
  String.eqb (lower (GmailFetch.name h)) n.

(** The row of the table with the given message id. *)
Definition lookup (id : string) (t : Sqlite.table) : option Sqlite.row :=
  find (fun r => Sqlite.clash [Sqlite.Text id] r) t.

(** The email that the rules processor reads back for an email that the
    fetcher has saved. *)
Definition stored (isoformat : datetime -> string) (e : GmailFetch.Email)
  : Email :=
  mkEmail (GmailFetch.message_id e) (GmailFetch.sender e)
          (GmailFetch.recipient e) (GmailFetch.message e)
          (isoformat (GmailFetch.received_time e)) (GmailFetch.subject e).

(** The rule, on a text field, returns a boolean on the email; it holds
    of the email. *)
Definition evaluates (lower : string -> string) (email : Email) (r : Rule)
  : bool :=
  negb (is_raise
          (evaluate_string_rule lower r (getattr email (field_name r)))).

Definition holds (lower : string -> string) (email : Email) (r : Rule)
  : bool :=
  match evaluate_string_rule lower r (getattr email (field_name r)) with
  | Ok b => b
  | Raise _ => false
  end.

(** An email whose stamp [Scenarios.sample_fromisoformat] does not
    read. *)
Definition bad_stamp_email : Email :=
  mkEmail "789" "sender@example.com" "recipient@test.com" "Hello."
          "yesterday" "This is an important email".

(** A rule on the sender, then a rule on the age. *)
Definition sender_then_age : RuleSet :=
  mkRuleSet
    [ mkRule SENDER (StringP CONTAINS) "example.com";
      mkRule RECEIVED_TIME (DateP IS_LESS_THAN) "7 days" ]
    ALL
    [ mkAction MARK_AS_READ None ].

(** The rules of [Scenarios.sample_ruleset], the second one first and
    repeated. *)
Definition sample_ruleset_shuffled : RuleSet :=
  mkRuleSet
    [ mkRule SUBJECT (StringP CONTAINS) "important";
      mkRule SENDER (StringP CONTAINS) "example.com";
      mkRule SUBJECT (StringP CONTAINS) "important" ]
    ALL
    [ mkAction MARK_AS_READ None;
      mkAction MOVE_TO_MAILBOX (Some "Important") ].

(** The listing of the labels answers with a system label and two labels
    named "Important". *)
Definition important_labels_list (p : list Scenarios.request)
  : result exn (option (list Label)) * list Scenarios.request :=
  (Ok (Some [ mkLabel "INBOX" "INBOX";
              mkLabel "Label_7" "Important";
              mkLabel "Label_9" "Important" ]),
   (p ++ [Scenarios.labels_list_request])%list).

(** A mark as read, then a mark as unread. *)
Definition marks_only : list Action :=
  [ mkAction MARK_AS_READ None; mkAction MARK_AS_UNREAD None ].

(** The rules of [Scenarios.sample_ruleset] without any action. *)
Definition silent_ruleset : RuleSet :=
  mkRuleSet (rules Scenarios.sample_ruleset) ALL [].

(** The column [v] holds the text [s]: as a text, or as the bytes of its
    UTF-8 encoding. *)
Definition holds_text (v : Sqlite.value) (s : string) : Prop :=
  v = Sqlite.Text s \/ (v = Sqlite.Blob s /\ valid_utf8 s = true).

(** The row of [Scenarios.sample_email] and a row without sender. *)
Definition sample_row : Sqlite.row :=
  [ Sqlite.Text "123"; Sqlite.Text "sender@example.com";
    Sqlite.Text "recipient@test.com";
    Sqlite.Text "Hello, this is the message body.";
    Sqlite.Text "2023-01-01T12:00:00+00:00";
    Sqlite.Text "This is an important email" ].

(** The row of [Scenarios.sample_email] with its subject held as
    bytes. *)
Definition row_with_bytes : Sqlite.row :=
  [ Sqlite.Text "123"; Sqlite.Text "sender@example.com";
    Sqlite.Text "recipient@test.com";
    Sqlite.Text "Hello, this is the message body.";
    Sqlite.Text "2023-01-01T12:00:00+00:00";
    Sqlite.Blob "This is an important email" ].

Definition row_without_sender : Sqlite.row :=
  [ Sqlite.Text "124"; Sqlite.Null; Sqlite.Text "recipient@test.com";
    Sqlite.Text "Hello."; Sqlite.Text "2023-01-01T12:00:00+00:00";
    Sqlite.Text "No sender" ].

(** The value that the loop over the headers keeps for the header name
    [n], one of "from", "subject", "date" and "to". *)
Definition envelope_value (n : string) (env : GmailFetch.Envelope)
  : option string :=
  if String.eqb n "from" then Some (GmailFetch.env_sender env)
  else if String.eqb n "subject" then Some (GmailFetch.env_subject env)
  else if String.eqb n "date" then Some (GmailFetch.env_date env)
  else if String.eqb n "to" then Some (GmailFetch.env_recipient env)
  else None.

(** Headers with two senders, in different cases, and no date. *)
Definition two_senders : list GmailFetch.Header :=
  [ GmailFetch.mkHeader "From" "first@example.com";
    GmailFetch.mkHeader "Subject" "Hello";
    GmailFetch.mkHeader "FROM" "second@example.com";
    GmailFetch.mkHeader "X-Mailer" "none" ].

(** A service whose message "msg1" cannot be retrieved. *)
Definition failing_messages_get (id : string)
  : result GmailFetch.exn GmailFetch.Message :=
  if String.eqb id "msg1" then Raise (GmailFetch.HttpError "notFound")
  else Scenarios.sample_messages_get id.

(** [datetime.isoformat] on the stamps of the scenarios. *)
Definition sample_isoformat (d : datetime) : string :=
  match d with
  | Aware _ => "2023-01-01T12:00:00+00:00"
  | Naive _ => "2023-01-01T12:00:00"
  end.

(** Two fetched emails, and a later version of the first. *)
Definition fetched_a : GmailFetch.Email :=
  GmailFetch.mkEmail "msg1" "a@example.com" "me@example.com" "Body A"
                     (Aware 1672574400000000) "Subject A".

Definition fetched_b : GmailFetch.Email :=
  GmailFetch.mkEmail "msg2" "b@example.com" "me@example.com" "Body B"
                     (Aware 1672574400000000) "Subject B".

Definition fetched_a_again : GmailFetch.Email :=
  GmailFetch.mkEmail "msg1" "a@example.com" "me@example.com" "Body A, edited"
                     (Aware 1672574400000000) "Subject A".

End Notions.

(** ** Facts on the built-ins *)

Module PyFacts.
Import Py RuleSpec.

Lemma startswith_iff (s p : string) :
  startswith s p = true <-> exists q, s = p ++ q.
Proof.
  revert s; induction p as [|a p IH]; intros s; simpl.
  - split; [intros _; now exists s | reflexivity].
  - destruct s as [|b s].
    + split; [discriminate | intros [q Hq]; discriminate].
    + rewrite andb_true_iff, Ascii.eqb_eq, IH. split.
      * intros [-> [q ->]]. now exists q.
      * intros [q Hq]. injection Hq as -> ->. split; [reflexivity | now exists
          q].
Qed.

(** [needle in hay] is true exactly when [hay] is some text, then
    [needle], then some text. *)
Lemma contains_iff (needle hay : string) :
  contains needle hay = true <->
  exists pre post, hay = pre ++ needle ++ post.
Proof.
  induction hay as [|c hay IH]; simpl.
  - rewrite orb_false_r, startswith_iff. split.
    + intros [q Hq]. now exists "", q.
    + intros [pre [post H]]. destruct pre; simpl in H.
      * now exists post.
      * discriminate.
  - rewrite orb_true_iff, startswith_iff, IH. split.
    + intros [[q Hq] | [pre [post H]]].
      * now exists "", q.
      * exists (String c pre), post. simpl. now rewrite H.
    + intros [pre [post H]]. destruct pre as [|c' pre]; simpl in H.
      * left. now exists post.
      * right. exists pre, post. congruence.
Qed.

Lemma ascii_lower_char_idempotent (c : ascii) :
  ascii_lower_char (ascii_lower_char c) = ascii_lower_char c.
Proof.
  destruct c as [[] [] [] [] [] [] [] []]; reflexivity.
Qed.

Lemma ascii_lower_idempotent (s : string) :
  ascii_lower (ascii_lower s) = ascii_lower s.
Proof.
  induction s as [|c s IH]; simpl; [reflexivity|].
  now rewrite ascii_lower_char_idempotent, IH.
Qed.

(** A word that starts with "month" does not start with "day". *)
Lemma startswith_month_not_day (u : string) :
  startswith u "month" = true -> startswith u "day" = false.
Proof.
  intros H. apply startswith_iff in H as [q ->]. reflexivity.
Qed.

Lemma append_empty_r (s : string) : s ++ "" = s.
Proof.
  induction s as [|c s IH]; simpl; [reflexivity | now rewrite IH].
Qed.

End PyFacts.

(** ** The predicate evaluator and the rule-set resolver *)

Module RuleEngine.
Import Py GmailRulesProcessor RuleSpec Scenarios PyFacts.

Section WithClock.

Variable lower : string -> string.
Variable int : string -> option Z.
Variable fromisoformat : string -> option datetime.
Variable clock : nat -> Z.

(** On a text field [evaluate_rule] is [evaluate_string_rule] on the
    value of that field, and the clock is not read. *)
Lemma evaluate_rule_text (rule : Rule) (email : Email) (t : nat) :
  is_text_field (field_name rule) = true ->
  evaluate_rule lower int fromisoformat clock rule email t =
  lift (evaluate_string_rule lower rule (getattr email (field_name rule))) t.
Proof.
  unfold evaluate_rule. destruct (field_name rule); simpl;
    solve [reflexivity | discriminate].
Qed.

(** On [received_time] it is [evaluate_date_rule] on the stamp. *)
Lemma evaluate_rule_date (rule : Rule) (email : Email) (t : nat) :
  field_name rule = RECEIVED_TIME ->
  evaluate_rule lower int fromisoformat clock rule email t =
  evaluate_date_rule int fromisoformat clock rule (received_time email) t.
Proof.
  unfold evaluate_rule. intros ->. reflexivity.
Qed.

End WithClock.

(** C2. On each of the four text fields the string predicates compare
    the lower-cased comparand with the lower-cased value of the field,
    [lower] being [str.lower]: [contains] holds exactly when the first
    occurs inside the second, [equals] exactly when the two are the same
    text; the outcome therefore does not change when comparand or field
    are replaced by texts with the same lower-casing. On ASCII texts,
    which [str.lower] lower-cases as [ascii_lower] does, the outcome is
    that of the comparison of the two texts with their letters A to Z
    turned into a to z: the comparand "EXAMPLE" is contained in the sender
    "user@example.com" and not in the sender "user@test.com". *)
Theorem string_predicates_ignore_case :
  forall lower int fromisoformat clock (f : FieldName) (v : string)
         (email : Email) (t : nat),
    is_text_field f = true ->
    let fv := getattr email f in
    (exists b,
        evaluate_rule lower int fromisoformat clock
                      (mkRule f (StringP CONTAINS) v) email t = Ok (b, t) /\
        (b = true <-> exists pre post, lower fv = pre ++ lower v ++ post)) /\
    (exists b,
        evaluate_rule lower int fromisoformat clock
                      (mkRule f (StringP EQUALS) v) email t = Ok (b, t) /\
        (b = true <-> lower v = lower fv)) /\
    (forall (p : StringPredicate) (v' fv' : string),
        lower v' = lower v -> lower fv' = lower fv ->
        evaluate_string_rule lower (mkRule f (StringP p) v') fv' =
        evaluate_string_rule lower (mkRule f (StringP p) v) fv) /\
    (lowers_ascii lower ->
     (is_ascii v = true -> is_ascii fv = true ->
      evaluate_rule lower int fromisoformat clock
                    (mkRule f (StringP CONTAINS) v) email t =
      Ok (contains (ascii_lower v) (ascii_lower fv), t) /\
      evaluate_rule lower int fromisoformat clock
                    (mkRule f (StringP EQUALS) v) email t =
      Ok (String.eqb (ascii_lower v) (ascii_lower fv), t)) /\
     (forall id rcp msg stamp subj,
         evaluate_rule lower int fromisoformat clock
                       (mkRule SENDER (StringP CONTAINS) "EXAMPLE")
                       (mkEmail id "user@example.com" rcp msg stamp subj) t =
         Ok (true, t) /\
         evaluate_rule lower int fromisoformat clock
                       (mkRule SENDER (StringP CONTAINS) "EXAMPLE")
                       (mkEmail id "user@test.com" rcp msg stamp subj) t =
         Ok (false, t))).
Proof.
  intros lower int fromisoformat clock f v email t Hf fv.
  split; [|split; [|split; [|intros Hascii; split]]].
  - exists (contains (lower v) (lower fv)). split.
    + rewrite evaluate_rule_text by exact Hf. reflexivity.
    + apply contains_iff.
  - exists (String.eqb (lower v) (lower fv)). split.
    + rewrite evaluate_rule_text by exact Hf. reflexivity.
    + apply String.eqb_eq.
  - intros p v' fv' Hv Hfv. unfold evaluate_string_rule; simpl.
    rewrite Hv, Hfv. reflexivity.
  - intros Hv Hfv. rewrite !evaluate_rule_text by exact Hf.
    unfold evaluate_string_rule, lift; simpl. fold fv.
    rewrite (Hascii v Hv), (Hascii fv Hfv). split; reflexivity.
  - intros id rcp msg stamp subj.
    unfold evaluate_rule, evaluate_string_rule, lift; simpl.
    rewrite !Hascii by reflexivity. split; reflexivity.
Qed.

Lemma string_predicates_ignore_case_witness :
  evaluate_rule ascii_lower ascii_int sample_fromisoformat sample_clock
                (mkRule SUBJECT (StringP CONTAINS) "IMPORTANT")
                sample_email 0%nat =
  Ok (contains (ascii_lower "IMPORTANT")
               (ascii_lower (subject sample_email)), 0%nat) /\
  evaluate_rule ascii_lower ascii_int sample_fromisoformat sample_clock
                (mkRule SUBJECT (StringP EQUALS) "IMPORTANT")
                sample_email 0%nat =
  Ok (String.eqb (ascii_lower "IMPORTANT")
                 (ascii_lower (subject sample_email)), 0%nat).
Proof.
  destruct (string_predicates_ignore_case ascii_lower ascii_int
              sample_fromisoformat sample_clock SUBJECT "IMPORTANT"
              sample_email 0%nat eq_refl) as [_ [_ [_ H]]].
  apply H.
  - intros s _. reflexivity.
  - reflexivity.
  - reflexivity.
Defined.

(** C3. On every comparand and every field value, [does not contain]
    returns the negation of what [contains] returns and [does not equal]
    the negation of what [equals] returns. *)
Theorem negated_string_predicates :
  forall (lower : string -> string) (f : FieldName) (v fv : string),
    (exists b,
        evaluate_string_rule lower (mkRule f (StringP CONTAINS) v) fv = Ok b /\
        evaluate_string_rule lower (mkRule f (StringP DOES_NOT_CONTAIN) v) fv =
        Ok (negb b)) /\
    (exists b,
        evaluate_string_rule lower (mkRule f (StringP EQUALS) v) fv = Ok b /\
        evaluate_string_rule lower (mkRule f (StringP DOES_NOT_EQUAL) v) fv =
        Ok (negb b)).
Proof.
  intros lower f v fv. split; eexists; split; reflexivity.
Qed.

(** The threshold of a comparand made of an amount and a unit. *)
Lemma parse_delta_words (int : string -> option Z) (v a u : string)
      (rest : list string) (n : Z) :
  split v = a :: u :: rest -> int a = Some n ->
  parse_delta int v =
  if startswith u "day" then timedelta n
  else if startswith u "month" then timedelta (n * 30)
  else Raise (ValueError_time_unit u).
Proof.
  intros Hsplit Hint. unfold parse_delta. rewrite Hsplit; simpl.
  rewrite Hint. reflexivity.
Qed.

(** [timedelta(days=n)] within and beyond the range of the type. *)
Lemma timedelta_in_range (n : Z) :
  -999999999 <= n <= 999999999 -> timedelta n = Ok (days n).
Proof.
  intros [Hlo Hhi]. unfold timedelta, timedelta_days.
  apply Z.leb_le in Hlo, Hhi. rewrite Hlo, Hhi. reflexivity.
Qed.

Lemma timedelta_out_of_range (n : Z) :
  ~ -999999999 <= n <= 999999999 -> timedelta n = Raise OverflowError.
Proof.
  intros Hout. unfold timedelta, timedelta_days.
  destruct (-999999999 <=? n) eqn:Hlo; [|reflexivity].
  destruct (n <=? 999999999) eqn:Hhi; [|reflexivity].
  apply Z.leb_le in Hlo, Hhi. exfalso. apply Hout. split; assumption.
Qed.

(** C4. On a stamp that denotes an instant and a comparand that stands
    for the threshold [d], with [a] the time elapsed from the stamp to the
    reading of the clock: [is less than] holds exactly when [a < d] and
    [is greater than] exactly when [a > d], so neither holds when
    [a = d]. With the comparand "7 days", whose amount [int] reads as 7,
    an email aged 5 days is less and not greater, an email aged 10 days is
    greater and not less. *)
Theorem date_predicates_are_strict :
  forall lower int fromisoformat clock,
    (forall (v : string) (email : Email) (t : nat) (r d : Z),
        fromisoformat (received_time email) = Some (Aware r) ->
        parse_delta int v = Ok d ->
        let a := clock t - r in
        (exists b,
            evaluate_rule lower int fromisoformat clock
              (mkRule RECEIVED_TIME (DateP IS_LESS_THAN) v) email t =
            Ok (b, S t) /\ (b = true <-> a < d)) /\
        (exists b,
            evaluate_rule lower int fromisoformat clock
              (mkRule RECEIVED_TIME (DateP IS_GREATER_THAN) v) email t =
            Ok (b, S t) /\ (b = true <-> a > d)) /\
        (a = d ->
         evaluate_rule lower int fromisoformat clock
           (mkRule RECEIVED_TIME (DateP IS_LESS_THAN) v) email t =
         Ok (false, S t) /\
         evaluate_rule lower int fromisoformat clock
           (mkRule RECEIVED_TIME (DateP IS_GREATER_THAN) v) email t =
         Ok (false, S t))) /\
    (int "7" = Some 7 ->
     parse_delta int "7 days" = Ok (days 7) /\
     forall (email : Email) (t : nat) (r : Z),
        fromisoformat (received_time email) = Some (Aware r) ->
        (clock t - r = days 5 ->
         evaluate_rule lower int fromisoformat clock
           (mkRule RECEIVED_TIME (DateP IS_LESS_THAN) "7 days") email t =
         Ok (true, S t) /\
         evaluate_rule lower int fromisoformat clock
           (mkRule RECEIVED_TIME (DateP IS_GREATER_THAN) "7 days") email t =
         Ok (false, S t)) /\
        (clock t - r = days 10 ->
         evaluate_rule lower int fromisoformat clock
           (mkRule RECEIVED_TIME (DateP IS_LESS_THAN) "7 days") email t =
         Ok (false, S t) /\
         evaluate_rule lower int fromisoformat clock
           (mkRule RECEIVED_TIME (DateP IS_GREATER_THAN) "7 days") email t =
         Ok (true, S t))).
Proof.
  intros lower int fromisoformat clock. split.
  - intros v email t r d Hstamp Hdelta a.
    unfold evaluate_rule, evaluate_date_rule, tbind, datetime_now, lift, ret;
      simpl.
    rewrite Hstamp, Hdelta; simpl. fold a.
    split; [|split].
    + exists (a <? d). split; [reflexivity | apply Z.ltb_lt].
    + exists (a >? d). split; [reflexivity|].
      rewrite Z.gtb_ltb, Z.ltb_lt. lia.
    + intros ->. rewrite Z.ltb_irrefl, Z.gtb_ltb, Z.ltb_irrefl. now split.
  - intros Hint.
    assert (parse_delta int "7 days" = Ok (days 7)) as Hdelta.
    { rewrite (parse_delta_words int "7 days" "7" "days" [] 7 eq_refl Hint).
      reflexivity. }
    split; [exact Hdelta|].
    intros email t r Hstamp.
    unfold evaluate_rule, evaluate_date_rule, tbind, datetime_now, lift, ret;
      simpl.
    rewrite Hstamp, Hdelta; simpl.
    split; intros ->; split; reflexivity.
Qed.

Lemma date_predicates_are_strict_witness :
  evaluate_rule ascii_lower ascii_int sample_fromisoformat five_days_clock
    (mkRule RECEIVED_TIME (DateP IS_LESS_THAN) "7 days") sample_email 0%nat =
  Ok (true, 1%nat) /\
  evaluate_rule ascii_lower ascii_int sample_fromisoformat five_days_clock
    (mkRule RECEIVED_TIME (DateP IS_GREATER_THAN) "7 days") sample_email 0%nat =
  Ok (false, 1%nat).
Proof.
  destruct (date_predicates_are_strict ascii_lower ascii_int
              sample_fromisoformat five_days_clock) as [_ H].
  destruct (H eq_refl) as [_ H7].
  apply (H7 sample_email 0%nat 1672574400000000).
  - reflexivity.
  - reflexivity.
Defined.

(** A stamp without offset cannot be subtracted from the reading of the
    clock. *)
Example naive_stamp_raises :
  evaluate_date_rule ascii_int sample_fromisoformat sample_clock
    (mkRule RECEIVED_TIME (DateP IS_LESS_THAN) "7 days")
    "2023-01-01T12:00:00" 0%nat = Raise TypeError.
Proof. reflexivity. Qed.

(** An amount of days beyond the range of [timedelta]: the comparand
    stands for no duration, and the rule raises [OverflowError]. The same
    holds of an amount of months from 33333334 on. *)
Lemma day_amount_beyond_timedelta :
  split "1000000000 days" = ["1000000000"; "days"] /\
  ascii_int "1000000000" = Some 1000000000 /\
  startswith "days" "day" = true /\
  parse_delta ascii_int "1000000000 days" = Raise OverflowError /\
  parse_delta ascii_int "33333334 months" = Raise OverflowError /\
  evaluate_rule ascii_lower ascii_int sample_fromisoformat sample_clock
    (mkRule RECEIVED_TIME (DateP IS_LESS_THAN) "1000000000 days")
    sample_email 0%nat = Raise OverflowError.
Proof. repeat split; reflexivity. Qed.

(** C5. A comparand whose amount reads as the integer [n] stands for [n]
    days when its unit starts with "day" and [n] is at most 999999999 in
    absolute value, and for [n * 30] days when its unit starts with
    "month" and [n * 30] is at most 999999999 in absolute value; beyond
    these bounds it raises [OverflowError]. For every [n], every stamp and
    every kind, a date rule with [n] and a month unit evaluates as the same
    rule with [30 * n] and a day unit; so "1 months" evaluates as
    "30 days" once [int] reads "1" as 1 and "30" as 30. *)
Theorem month_is_thirty_days :
  (forall int (v a u : string) (rest : list string) (n : Z),
      split v = a :: u :: rest -> int a = Some n ->
      (startswith u "day" = true ->
       (-999999999 <= n <= 999999999 ->
        parse_delta int v = Ok (n * days 1)) /\
       (~ -999999999 <= n <= 999999999 ->
        parse_delta int v = Raise OverflowError)) /\
      (startswith u "month" = true ->
       (-999999999 <= n * 30 <= 999999999 ->
        parse_delta int v = Ok (n * 30 * days 1)) /\
       (~ -999999999 <= n * 30 <= 999999999 ->
        parse_delta int v = Raise OverflowError))) /\
  (forall int fromisoformat clock (f : FieldName) (p : Predicate)
          (fv : string) (t : nat)
          (vm am um : string) (restm : list string)
          (vd ad ud : string) (restd : list string) (n : Z),
      split vm = am :: um :: restm -> int am = Some n ->
      startswith um "month" = true ->
      split vd = ad :: ud :: restd -> int ad = Some (30 * n) ->
      startswith ud "day" = true ->
      parse_delta int vm = parse_delta int vd /\
      evaluate_date_rule int fromisoformat clock (mkRule f p vm) fv t =
      evaluate_date_rule int fromisoformat clock (mkRule f p vd) fv t) /\
  (forall int fromisoformat clock (f : FieldName) (p : Predicate)
          (fv : string) (t : nat),
      int "1" = Some 1 -> int "30" = Some 30 ->
      parse_delta int "1 months" = Ok (30 * days 1) /\
      parse_delta int "30 days" = Ok (30 * days 1) /\
      evaluate_date_rule int fromisoformat clock (mkRule f p "1 months") fv t =
      evaluate_date_rule int fromisoformat clock (mkRule f p "30 days") fv t).
Proof.
  split; [|split].
  - intros int v a u rest n Hsplit Hint. split; intros Hu.
    + rewrite (parse_delta_words _ _ _ _ _ _ Hsplit Hint), Hu. split.
      * intros Hn. rewrite (timedelta_in_range _ Hn).
        unfold days; f_equal; lia.
      * apply timedelta_out_of_range.
    + rewrite (parse_delta_words _ _ _ _ _ _ Hsplit Hint), Hu.
      rewrite (startswith_month_not_day _ Hu). split.
      * intros Hn. rewrite (timedelta_in_range _ Hn).
        unfold days; f_equal; lia.
      * apply timedelta_out_of_range.
  - intros int fromisoformat clock f p fv t vm am um restm vd ad ud restd n
           Hm Him Hum Hd Hid Hud.
    assert (parse_delta int vm = parse_delta int vd) as Hsame.
    { rewrite (parse_delta_words _ _ _ _ _ _ Hm Him), Hum.
      rewrite (startswith_month_not_day _ Hum).
      rewrite (parse_delta_words _ _ _ _ _ _ Hd Hid), Hud.
      replace (n * 30) with (30 * n) by lia. reflexivity. }
    split; [exact Hsame|].
    unfold evaluate_date_rule, tbind, lift; simpl.
    rewrite Hsame. reflexivity.
  - intros int fromisoformat clock f p fv t H1 H30.
    assert (parse_delta int "1 months" = Ok (30 * days 1)) as Hm.
    { rewrite (parse_delta_words int "1 months" "1" "months" [] 1 eq_refl H1).
      reflexivity. }
    assert (parse_delta int "30 days" = Ok (30 * days 1)) as Hd.
    { rewrite (parse_delta_words int "30 days" "30" "days" [] 30 eq_refl H30).
      reflexivity. }
    split; [exact Hm|]. split; [exact Hd|].
    unfold evaluate_date_rule, tbind, lift; simpl.
    rewrite Hm, Hd. reflexivity.
Qed.

Lemma month_is_thirty_days_witness :
  parse_delta ascii_int "2 months" = Ok (2 * 30 * days 1) /\
  evaluate_date_rule ascii_int sample_fromisoformat sample_clock
    (mkRule RECEIVED_TIME (DateP IS_GREATER_THAN) "2 months")
    "2023-01-01T12:00:00+00:00" 0%nat =
  evaluate_date_rule ascii_int sample_fromisoformat sample_clock
    (mkRule RECEIVED_TIME (DateP IS_GREATER_THAN) "60 day")
    "2023-01-01T12:00:00+00:00" 0%nat.
Proof.
  destruct month_is_thirty_days as [Hdelta [Hsame _]]. split.
  - apply (Hdelta ascii_int "2 months" "2" "months" [] 2 eq_refl eq_refl).
    + reflexivity.
    + lia.
  - apply (Hsame ascii_int sample_fromisoformat sample_clock RECEIVED_TIME
             (DateP IS_GREATER_THAN) "2023-01-01T12:00:00+00:00" 0%nat
             "2 months" "2" "months" [] "60 day" "60" "day" [] 2);
      reflexivity.
Defined.

Section Resolver.

Variable lower : string -> string.
Variable int : string -> option Z.
Variable fromisoformat : string -> option datetime.
Variable clock : nat -> Z.
Variable email : Email.

(** The comprehension of [apply_rules] returns exactly when the rules
    evaluate one after the other. *)
Lemma comprehension_evaluations (rs : list Rule) :
  forall t bs t',
    comprehension (fun rule => evaluate_rule lower int fromisoformat clock rule
        email)
                  rs t = Ok (bs, t') <->
    evaluations lower int fromisoformat clock email rs t bs t'.
Proof.
  induction rs as [|r rs IH]; intros t bs t'; simpl.
  - unfold ret. split.
    + intros H. injection H as <- <-. constructor.
    + intros H. inversion H; subst. reflexivity.
  - unfold tbind, ret. split.
    + intros H.
      destruct (evaluate_rule lower int fromisoformat clock r email t)
        as [[b t1]|e] eqn:Hr; [|discriminate].
      destruct (comprehension _ rs t1) as [[bs' t2]|e] eqn:Hrs;
        [|discriminate].
      injection H as <- <-.
      econstructor; [exact Hr | now apply IH].
    + intros H. inversion H as [|r' rs' t0 t1 t2 b bs' Hr Hrs]; subst.
      rewrite Hr. apply IH in Hrs. rewrite Hrs. reflexivity.
Qed.

(** The first rule that raises ends the comprehension. *)
Lemma comprehension_raises (rs : list Rule) :
  forall t,
    (exists r, In r rs /\
               forall t1,
                 is_raise (evaluate_rule lower int fromisoformat clock r email
                     t1) =
                 true) ->
    exists e r t1,
      comprehension (fun rule => evaluate_rule lower int fromisoformat clock
          rule email)
                    rs t = Raise e /\
      In r rs /\ evaluate_rule lower int fromisoformat clock r email t1 = Raise
          e.
Proof.
  induction rs as [|r0 rs IH]; intros t [r [Hin Hr]].
  - destruct Hin.
  - simpl. unfold tbind.
    destruct (evaluate_rule lower int fromisoformat clock r0 email t)
      as [[b t1]|e] eqn:H0.
    + destruct Hin as [->|Hin].
      * specialize (Hr t). rewrite H0 in Hr. discriminate.
      * destruct (IH t1 (ex_intro _ r (conj Hin Hr)))
          as [e [r' [t2 [He [Hin' Hr']]]]].
        rewrite He. exists e, r', t2. auto.
    + exists e, r0, t. auto.
Qed.

(** A malformed rule raises at every reading of the clock. *)
Lemma malformed_raises (r : Rule) (t : nat) :
  malformed r = true ->
  is_raise (evaluate_rule lower int fromisoformat clock r email t) = true.
Proof.
  unfold malformed, evaluate_rule.
  destruct r as [f p v]; simpl.
  destruct f, p as [p|p]; try discriminate; intros H;
    try (destruct p; reflexivity).
  - unfold evaluate_date_rule, tbind, lift, datetime_now, raise; simpl.
    destruct (fromisoformat _); [|reflexivity].
    destruct (parse_delta int v); [|reflexivity].
    destruct p; reflexivity.
  - unfold evaluate_date_rule, tbind, lift, datetime_now, raise; simpl.
    destruct (fromisoformat _); [|reflexivity].
    unfold unrecognized_unit in H. unfold parse_delta.
    destruct (nth_error (split v) 0) as [w|]; [|reflexivity].
    destruct (int w); [|reflexivity].
    destruct (nth_error (split v) 1) as [u|]; [|discriminate].
    apply negb_true_iff, orb_false_iff in H as [-> ->]. reflexivity.
Qed.

(** A comprehension that raises has evaluated the rules before one of its
    rules, and raises what that rule raises. *)
Lemma comprehension_raise_splits (rs : list Rule) :
  forall t e,
    comprehension (fun rule => evaluate_rule lower int fromisoformat clock rule
        email)
                  rs t = Raise e ->
    exists pre r post bs t1,
      rs = (pre ++ r :: post)%list /\
      evaluations lower int fromisoformat clock email pre t bs t1 /\
      evaluate_rule lower int fromisoformat clock r email t1 = Raise e.
Proof.
  induction rs as [|r0 rs IH]; intros t e H.
  - discriminate.
  - simpl in H. unfold tbind in H.
    destruct (evaluate_rule lower int fromisoformat clock r0 email t)
      as [[b t1]|e0] eqn:H0.
    + destruct (comprehension _ rs t1) as [[bs t2]|e1] eqn:Hrs;
        [discriminate|].
      injection H as <-.
      destruct (IH t1 e1 Hrs) as [pre [r [post [bs [t2 [Heq [Hev Hr]]]]]]].
      exists (r0 :: pre), r, post, (b :: bs), t2.
      split; [rewrite Heq; reflexivity|].
      split; [|exact Hr].
      econstructor; [exact H0 | exact Hev].
    + injection H as <-.
      exists [], r0, rs, [], t.
      split; [reflexivity|]. split; [constructor | exact H0].
Qed.

(** [timedelta] raises nothing but [OverflowError], and [parse_delta]
    nothing but errors of the comparand. *)
Lemma parse_delta_error (v : string) (e : exn) :
  parse_delta int v = Raise e -> is_configuration_error e = true.
Proof.
  unfold parse_delta, timedelta.
  destruct (nth_error (split v) 0) as [w|]; [|intros H; injection H as <-;
      reflexivity].
  destruct (int w) as [n|]; [|intros H; injection H as <-; reflexivity].
  destruct (nth_error (split v) 1) as [u|];
    [|intros H; injection H as <-; reflexivity].
  destruct (startswith u "day").
  - destruct (timedelta_days n); [discriminate|].
    intros H; injection H as <-; reflexivity.
  - destruct (startswith u "month").
    + destruct (timedelta_days (n * 30)); [discriminate|].
      intros H; injection H as <-; reflexivity.
    + intros H; injection H as <-; reflexivity.
Qed.

(** On an email whose stamp denotes an instant, what the evaluation of a
    rule raises is an error of the rule. *)
Lemma evaluate_rule_aware_error (r : Rule) (t : nat) (d : Z) (e : exn) :
  fromisoformat (received_time email) = Some (Aware d) ->
  evaluate_rule lower int fromisoformat clock r email t = Raise e ->
  is_configuration_error e = true.
Proof.
  intros Hstamp. unfold evaluate_rule.
  destruct r as [f p v]; simpl.
  assert (forall fv,
             lift (evaluate_string_rule lower (mkRule f p v) fv) t = Raise e ->
             is_configuration_error e = true) as Htext.
  { intros fv. unfold lift, evaluate_string_rule; simpl.
    destruct p as [[| | |]|q]; try discriminate.
    intros H; injection H as <-; reflexivity. }
  destruct f; try apply Htext.
  unfold evaluate_date_rule, tbind, lift, datetime_now, raise, ret; simpl.
  rewrite Hstamp.
  destruct (parse_delta int v) as [delta|e0] eqn:Hdelta.
  - destruct p as [q|[|]]; simpl; try discriminate.
    intros H; injection H as <-; reflexivity.
  - intros H; injection H as <-. exact (parse_delta_error v e0 Hdelta).
Qed.

End Resolver.

(** C1. When the rules of a rule set evaluate to the booleans [bs],
    [apply_rules] returns the actions of the rule set, the same list in
    the same order, if the rule set matches and the empty list if it does
    not. Under [all] the rule set matches exactly when every boolean is
    true, hence always when it has no rule; under [any] exactly when some
    boolean is true, hence never when it has no rule. *)
Theorem apply_rules_resolves :
  forall lower int fromisoformat clock (ruleset : RuleSet) (email : Email)
         (t t' : nat) (bs : list bool),
    evaluations lower int fromisoformat clock email (rules ruleset) t bs t' ->
    let matched :=
      match rule_predicate ruleset with
      | ALL => Forall (fun b => b = true) bs
      | ANY => Exists (fun b => b = true) bs
      end in
    (matched ->
     apply_rules lower int fromisoformat clock ruleset email t =
     Ok (actions ruleset, t')) /\
    (~ matched ->
     apply_rules lower int fromisoformat clock ruleset email t = Ok ([], t')).
Proof.
  intros lower int fromisoformat clock ruleset email t t' bs Hev matched.
  apply comprehension_evaluations in Hev.
  unfold apply_rules, tbind. rewrite Hev. subst matched.
  destruct (rule_predicate ruleset).
  - unfold all. destruct (forallb (fun b => b) bs) eqn:Hall.
    + split; [reflexivity|]. intros Hno. exfalso. apply Hno.
      apply Forall_forall. intros b Hb.
      exact (proj1 (forallb_forall _ _) Hall b Hb).
    + split; [|reflexivity]. intros Hyes.
      assert (forallb (fun b => b) bs = true) as Habs.
      { apply forallb_forall. intros b Hb.
        exact (proj1 (Forall_forall _ _) Hyes b Hb). }
      congruence.
  - unfold any. destruct (existsb (fun b => b) bs) eqn:Hany.
    + split; [reflexivity|]. intros Hno. exfalso. apply Hno.
      apply existsb_exists in Hany as [b [Hb Htrue]].
      apply Exists_exists. now exists b.
    + split; [|reflexivity]. intros Hyes.
      apply Exists_exists in Hyes as [b [Hb Htrue]].
      assert (existsb (fun b => b) bs = true) as Habs.
      { apply existsb_exists. now exists b. }
      congruence.
Qed.

(** Conversely, [apply_rules] returns only when every rule has returned a
    boolean. *)
Lemma apply_rules_returns
      lower int fromisoformat clock (ruleset : RuleSet) (email : Email) (t t' :
          nat)
      (acts : list Action) :
  apply_rules lower int fromisoformat clock ruleset email t = Ok (acts, t') ->
  exists bs, evaluations lower int fromisoformat clock email (rules ruleset) t
      bs t'.
Proof.
  unfold apply_rules, tbind. intros H.
  destruct (comprehension _ (rules ruleset) t) as [[bs t1]|e] eqn:Hc;
    [|discriminate].
  exists bs. apply comprehension_evaluations.
  destruct (rule_predicate ruleset);
    [destruct (all bs) | destruct (any bs)];
    unfold ret in H; injection H as _ <-; exact Hc.
Qed.

(** The resolver on the scenario of the tests and on rule sets of two
    rules on the sender, under both modes, and on no rule at all. *)
Example resolver_examples :
  let yes := mkRule SENDER (StringP CONTAINS) "example.com" in
  let no := mkRule SENDER (StringP CONTAINS) "other.com" in
  let acts := actions sample_ruleset in
  let run rs mode :=
    outcome (apply_rules ascii_lower ascii_int sample_fromisoformat sample_clock
               (mkRuleSet rs mode acts) sample_email 0%nat) in
  outcome (apply_rules ascii_lower ascii_int sample_fromisoformat sample_clock
      sample_ruleset
             non_matching_email 0%nat) = Ok [] /\
  run [yes; yes] ALL = Ok acts /\
  run [yes; no] ALL = Ok [] /\
  run [no; no] ANY = Ok [] /\
  run [no; yes] ANY = Ok acts /\
  run [] ALL = Ok acts /\
  run [] ANY = Ok [].
Proof. repeat split. Qed.

Lemma apply_rules_resolves_witness :
  apply_rules ascii_lower ascii_int sample_fromisoformat sample_clock
      sample_ruleset sample_email
              0%nat =
  Ok ([ mkAction MARK_AS_READ None;
        mkAction MOVE_TO_MAILBOX (Some "Important") ], 0%nat).
Proof.
  apply (apply_rules_resolves ascii_lower ascii_int sample_fromisoformat
      sample_clock
           sample_ruleset sample_email 0%nat 0%nat [true; true]).
  - apply evaluations_cons with (t1 := 0%nat); [reflexivity|].
    apply evaluations_cons with (t1 := 0%nat); [reflexivity|].
    apply evaluations_nil.
  - simpl. repeat constructor.
Defined.

(** A rule set with a malformed rule, on an email whose stamp has no
    offset: the date rule that comes first raises [TypeError], which is no
    error of the rule set. *)
Lemma malformed_rule_set_type_error :
  In (mkRule SUBJECT (DateP IS_LESS_THAN) "7 days") (rules age_then_malformed)
      /\
  malformed (mkRule SUBJECT (DateP IS_LESS_THAN) "7 days") = true /\
  apply_rules ascii_lower ascii_int sample_fromisoformat sample_clock
              age_then_malformed naive_stamp_email 0%nat = Raise TypeError /\
  is_configuration_error TypeError = false.
Proof.
  split; [simpl; auto|]. repeat split; reflexivity.
Qed.

(** C6. If some rule of the rule set pairs a field with a kind that the
    evaluator of that field does not know, or is a date rule whose unit is
    not recognized, then [apply_rules] raises, whatever the other rules
    evaluate to and wherever in the list that rule stands. What it raises
    is what the first rule that raises has raised, after the rules before
    it have been evaluated; on an email whose stamp denotes an instant
    this is an error of the rule set. *)
Theorem malformed_rule_set_raises :
  forall lower int fromisoformat clock (ruleset : RuleSet) (email : Email)
         (t : nat),
    (exists r, In r (rules ruleset) /\ malformed r = true) ->
    exists e pre r post bs t1,
      apply_rules lower int fromisoformat clock ruleset email t = Raise e /\
      rules ruleset = (pre ++ r :: post)%list /\
      evaluations lower int fromisoformat clock email pre t bs t1 /\
      evaluate_rule lower int fromisoformat clock r email t1 = Raise e /\
      ((exists d, fromisoformat (received_time email) = Some (Aware d)) ->
       is_configuration_error e = true).
Proof.
  intros lower int fromisoformat clock ruleset email t [r [Hin Hbad]].
  destruct (comprehension_raises lower int fromisoformat clock email
              (rules ruleset) t) as [e [r' [t1 [He _]]]].
  - exists r. split; [exact Hin|]. intros t1. now apply malformed_raises.
  - destruct (comprehension_raise_splits lower int fromisoformat clock email
                (rules ruleset) t e He)
      as [pre [r1 [post [bs [t2 [Heq [Hev Hr1]]]]]]].
    exists e, pre, r1, post, bs, t2.
    split; [unfold apply_rules, tbind; rewrite He; reflexivity|].
    split; [exact Heq|]. split; [exact Hev|]. split; [exact Hr1|].
    intros [d Hstamp].
    exact (evaluate_rule_aware_error lower int fromisoformat clock email
             r1 t2 d e Hstamp Hr1).
Qed.

Lemma malformed_rule_set_raises_witness :
  exists e pre r post bs t1,
    apply_rules ascii_lower ascii_int sample_fromisoformat sample_clock
                decided_then_malformed sample_email 0%nat = Raise e /\
    rules decided_then_malformed = (pre ++ r :: post)%list /\
    evaluations ascii_lower ascii_int sample_fromisoformat sample_clock
                sample_email pre 0%nat bs t1 /\
    evaluate_rule ascii_lower ascii_int sample_fromisoformat sample_clock
                  r sample_email t1 = Raise e /\
    ((exists d, sample_fromisoformat (received_time sample_email) =
                Some (Aware d)) ->
     is_configuration_error e = true).
Proof.
  apply (malformed_rule_set_raises ascii_lower ascii_int sample_fromisoformat
           sample_clock decided_then_malformed sample_email 0%nat).
  exists (mkRule SUBJECT (DateP IS_LESS_THAN) "7 days").
  split; [simpl; auto | reflexivity].
Defined.

(** A rule set of mode [any] that its first rule decides raises the error
    of its second rule. *)
Example decided_then_malformed_raises :
  evaluate_rule ascii_lower ascii_int sample_fromisoformat sample_clock
    (mkRule SENDER (StringP CONTAINS) "example.com") sample_email 0%nat =
  Ok (true, 0%nat) /\
  apply_rules ascii_lower ascii_int sample_fromisoformat sample_clock
      decided_then_malformed
              sample_email 0%nat =
  Raise (ValueError_string_predicate (DateP IS_LESS_THAN)).
Proof. split; reflexivity. Qed.

(** The comprehension over rules on text fields has one outcome, whatever
    the clock. *)
Lemma comprehension_text (lower : string -> string) (email : Email)
      (rs : list Rule) :
  (forall r, In r rs -> is_text_field (field_name r) = true) ->
  exists out : result exn (list bool),
    forall int fromisoformat clock t,
      comprehension
        (fun r => evaluate_rule lower int fromisoformat clock r email) rs t
      = lift out t.
Proof.
  induction rs as [|r rs IH]; intros Htext.
  - exists (Ok []). reflexivity.
  - destruct IH as [out Hout]; [intros r' Hr'; apply Htext; now right|].
    assert (is_text_field (field_name r) = true) as Hr
        by (apply Htext; now left).
    destruct (evaluate_string_rule lower r (getattr email (field_name r)))
      as [b|e] eqn:Hb.
    + destruct out as [bs|e].
      * exists (Ok (b :: bs)). intros i f c t. simpl. unfold tbind.
        rewrite (evaluate_rule_text lower i f c r email t Hr), Hb. simpl.
        rewrite Hout. reflexivity.
      * exists (Raise e). intros i f c t. simpl. unfold tbind.
        rewrite (evaluate_rule_text lower i f c r email t Hr), Hb. simpl.
        rewrite Hout. reflexivity.
    + exists (Raise e). intros i f c t. simpl. unfold tbind.
      rewrite (evaluate_rule_text lower i f c r email t Hr), Hb. reflexivity.
Qed.

(** C8. A rule on a text field has one outcome, and a rule set without a
    rule on [received_time] has one outcome: whatever the clock, the
    parser of stamps, the reader of amounts and the number of readings
    done, [evaluate_rule] and [apply_rules] return that outcome and leave
    the clock unread. Rule set and email are values that the evaluation
    only reads. *)
Theorem evaluation_is_deterministic :
  forall lower : string -> string,
  (forall (rule : Rule) (email : Email),
      is_text_field (field_name rule) = true ->
      forall int fromisoformat clock t,
        evaluate_rule lower int fromisoformat clock rule email t =
        lift (evaluate_string_rule lower rule
                (getattr email (field_name rule))) t) /\
  (forall (ruleset : RuleSet) (email : Email),
      (forall r, In r (rules ruleset) -> is_text_field (field_name r) = true) ->
      exists out : result exn (list Action),
        forall int fromisoformat clock t,
          apply_rules lower int fromisoformat clock ruleset email t =
          lift out t).
Proof.
  intros lower. split.
  - intros rule email Hr i f c t. now apply evaluate_rule_text.
  - intros ruleset email Htext.
    destruct (comprehension_text lower email (rules ruleset) Htext)
      as [out Hout].
    destruct out as [bs|e].
    + exists (Ok (match rule_predicate ruleset with
                  | ALL => if all bs then actions ruleset else []
                  | ANY => if any bs then actions ruleset else []
                  end)).
      intros i f c t. unfold apply_rules, tbind. rewrite Hout. simpl.
      destruct (rule_predicate ruleset);
        [destruct (all bs) | destruct (any bs)]; reflexivity.
    + exists (Raise e). intros i f c t. unfold apply_rules, tbind.
      rewrite Hout. reflexivity.
Qed.

Lemma evaluation_is_deterministic_witness :
  (forall int fromisoformat clock t,
      evaluate_rule ascii_lower int fromisoformat clock
        (mkRule SENDER (StringP CONTAINS) "example.com") sample_email t =
      Ok (true, t)) /\
  (exists out : result exn (list Action),
      forall int fromisoformat clock t,
        apply_rules ascii_lower int fromisoformat clock sample_ruleset
                    sample_email t =
        lift out t).
Proof.
  destruct (evaluation_is_deterministic ascii_lower) as [Hrule Hset]. split.
  - intros i f c t.
    apply (Hrule (mkRule SENDER (StringP CONTAINS) "example.com")
                 sample_email eq_refl i f c t).
  - apply (Hset sample_ruleset sample_email).
    intros r [<-|[<-|[]]]; reflexivity.
Defined.

(** C9. The model [Rule] accepts a rule that pairs a text field with a
    date kind; on every email [evaluate_rule] hands such a rule to
    [evaluate_string_rule], which raises the [ValueError] of an invalid
    string predicate. *)
Theorem date_kind_on_text_field :
  forall lower int fromisoformat clock (f : FieldName) (p : DatePredicate)
         (v : string) (email : Email) (t : nat),
    is_text_field f = true ->
    Rule_validate (FieldName_value f) (Predicate_value (DateP p)) v =
    Ok (mkRule f (DateP p) v) /\
    evaluate_rule lower int fromisoformat clock (mkRule f (DateP p) v) email t =
    lift (evaluate_string_rule lower (mkRule f (DateP p) v) (getattr email f)) t
        /\
    evaluate_rule lower int fromisoformat clock (mkRule f (DateP p) v) email t =
    Raise (ValueError_string_predicate (DateP p)) /\
    is_ValueError (ValueError_string_predicate (DateP p)) = true.
Proof.
  intros lower int fromisoformat clock f p v email t Hf.
  split; [|split; [|split]].
  - destruct f, p; reflexivity.
  - now apply evaluate_rule_text.
  - rewrite evaluate_rule_text by exact Hf. reflexivity.
  - reflexivity.
Qed.

Lemma date_kind_on_text_field_witness :
  Rule_validate "sender" "is less than" "7 days" =
  Ok (mkRule SENDER (DateP IS_LESS_THAN) "7 days") /\
  evaluate_rule ascii_lower ascii_int sample_fromisoformat sample_clock
    (mkRule SENDER (DateP IS_LESS_THAN) "7 days") sample_email 0%nat =
  Raise (ValueError_string_predicate (DateP IS_LESS_THAN)).
Proof.
  destruct (date_kind_on_text_field ascii_lower ascii_int sample_fromisoformat
      sample_clock
              SENDER IS_LESS_THAN "7 days" sample_email 0%nat eq_refl)
    as [Hmodel [_ [Hraise _]]].
  split; [exact Hmodel | exact Hraise].
Defined.

End RuleEngine.

(** ** The action dispatcher *)

Module Dispatcher.
Import Py GmailRulesProcessor Scenarios.

Section Service.

Variable provider : Type.
Variable labels_list : provider -> result exn (option (list Label)) * provider.
Variable labels_create : string -> provider -> result exn Label * provider.
Variable messages_modify :
  string -> ModifyBody -> provider -> result exn unit * provider.

(** When the listing of the labels raises, the body of
    [get_or_create_label] logs the exception and returns [None]. *)
Lemma get_or_create_label_body_list_failure
      (name : string) (p p' : provider) (lg : list log_record) (e : exn) :
  labels_list p = (Raise e, p') ->
  get_or_create_label_body provider labels_list labels_create name (p, lg) =
  (Ok None, (p', (lg ++ [log_error_label e])%list)).
Proof.
  intros Hlist.
  unfold get_or_create_label_body, io_try, io_bind, call, log, io_ret; simpl.
  rewrite Hlist. reflexivity.
Qed.

(** The check of the returned value then raises. *)
Lemma get_or_create_label_list_failure
      (name : string) (p p' : provider) (lg : list log_record) (e : exn) :
  labels_list p = (Raise e, p') ->
  get_or_create_label provider labels_list labels_create (Some name) (p, lg) =
  (Raise ValidationError, (p', (lg ++ [log_error_label e])%list)).
Proof.
  intros Hlist. unfold get_or_create_label, io_bind.
  rewrite (get_or_create_label_body_list_failure name p p' lg e Hlist).
  reflexivity.
Qed.

(** The same holds when the label is not listed and its creation raises. *)
Lemma get_or_create_label_create_failure
      (name : string) (labels : list Label) (p p1 p2 : provider)
      (lg : list log_record) (e : exn) :
  labels_list p = (Ok (Some labels), p1) ->
  find_label labels name = None ->
  labels_create name p1 = (Raise e, p2) ->
  get_or_create_label provider labels_list labels_create (Some name) (p, lg) =
  (Raise ValidationError, (p2, (lg ++ [log_error_label e])%list)).
Proof.
  intros Hlist Hfind Hcreate.
  unfold get_or_create_label, get_or_create_label_body, io_try, io_bind, call,
    log, io_ret; simpl.
  rewrite Hlist, Hfind. simpl. rewrite Hcreate. reflexivity.
Qed.

(** A move without folder name fails the check of the argument, before
    any request. *)
Lemma get_or_create_label_no_name (w : world provider) :
  get_or_create_label provider labels_list labels_create None w =
  (Raise ValidationError, w).
Proof. reflexivity. Qed.

(** The loop of [execute_actions] ends at the first action that raises. *)
Lemma for_each_raise (email : Email) (action : Action) (rest : list Action)
      (w w' : world provider) (e : exn) :
  execute_action provider labels_list labels_create messages_modify
                 email action w = (Raise e, w') ->
  for_each provider labels_list labels_create messages_modify
           email (action :: rest) w = (Raise e, w').
Proof.
  intros H. simpl. unfold io_bind. rewrite H. reflexivity.
Qed.

(** A move whose listing of the labels fails ends [execute_actions]: the
    provider is left as the failed listing left it, whatever actions
    follow. *)
Lemma execute_actions_list_failure
      (email : Email) (name : string) (rest : list Action)
      (p p' : provider) (lg : list log_record) (e : exn) :
  labels_list p = (Raise e, p') ->
  execute_actions provider labels_list labels_create messages_modify email
                  (mkAction MOVE_TO_MAILBOX (Some name) :: rest) (p, lg) =
  (Raise ValidationError,
   (p', (lg ++ [log_info "Executing actions"; log_error_label e])%list)).
Proof.
  intros Hlist. unfold execute_actions, io_bind, log. simpl fst; simpl snd.
  rewrite (for_each_raise email _ rest _
             (p', ((lg ++ [log_info "Executing actions"]) ++
                   [log_error_label e])%list) ValidationError).
  - now rewrite <- app_assoc.
  - unfold execute_action, io_bind. cbn [action_type folder_name].
    rewrite (get_or_create_label_list_failure name p p' _ e Hlist).
    reflexivity.
Qed.

End Service.

(** C7. On a service whose listing of the labels fails, [execute_actions]
    on a move followed by a mark as read logs the failure and raises the
    validation error of the value returned by [get_or_create_label]: the
    only request sent is the listing, and the mark as read is never
    requested. *)
Theorem label_failure_ends_execute_actions :
  execute_actions (list request) failing_labels_list recording_labels_create
                  recording_messages_modify sample_email move_then_mark
                  ([], []) =
  (Raise ValidationError,
   ([labels_list_request],
    [log_info "Executing actions";
     log_error_label (HttpError "backendError")])) /\
  ~ In (messages_modify_request "123" (removeLabelIds ["UNREAD"]))
       (fst (snd (execute_actions (list request) failing_labels_list
                    recording_labels_create recording_messages_modify
                    sample_email move_then_mark ([], [])))).
Proof.
  split; [reflexivity|].
  simpl. intros [H|[]]. discriminate.
Qed.

(** On a service that lists the labels, the same actions are both
    requested. *)
Example labels_listed_both_actions :
  execute_actions (list request) inbox_labels_list recording_labels_create
                  recording_messages_modify sample_email move_then_mark
                  ([], []) =
  (Ok tt,
   ([labels_list_request;
     labels_create_request "Important";
     messages_modify_request "123" (addLabelIds ["Label_Important"]);
     messages_modify_request "123" (removeLabelIds ["UNREAD"])],
    [log_info "Executing actions"])).
Proof. reflexivity. Qed.

End Dispatcher.

(** ** The fetcher *)

Module Fetcher.
Import Py GmailFetch Scenarios.

Lemma slice_to_length {A} (l : list A) (n : Z) :
  0 <= n -> Z.of_nat (List.length (slice_to l n)) <= n.
Proof.
  intros Hn. unfold slice_to.
  destruct (0 <=? n) eqn:H; [|apply Z.leb_gt in H; lia].
  rewrite length_firstn. lia.
Qed.

Section Service.

Variable lower : string -> string.
Variable messages_get : string -> result exn Message.
Variable parse : string -> option datetime.

(** The loop over the messages returns one email per message. *)
Lemma fetch_each_length (msgs : list string) :
  forall emails,
    fetch_each lower messages_get parse msgs = Ok emails ->
    List.length emails = List.length msgs.
Proof.
  induction msgs as [|m msgs IH]; intros emails H; simpl in H.
  - injection H as <-. reflexivity.
  - unfold bind in H.
    destruct (fetch_email lower messages_get parse m); [|discriminate].
    destruct (fetch_each lower messages_get parse msgs); [|discriminate].
    injection H as <-. simpl. f_equal. now apply IH.
Qed.

(** With a limit that is not negative, [fetch_emails] returns at most that
    many emails. *)
Lemma fetch_emails_at_most
      (responses : list (result exn ListResponse)) (max_emails : Z)
      (emails : list Email) :
  0 <= max_emails ->
  fetch_emails lower messages_get parse responses max_emails = Ok emails ->
  Z.of_nat (List.length emails) <= max_emails.
Proof.
  intros Hmax H. unfold fetch_emails, bind in H.
  destruct responses as [|first pages]; [discriminate|].
  destruct first as [results|]; [|discriminate].
  destruct (fetch_pages pages results _ max_emails) as [msgs|];
    [|discriminate].
  apply fetch_each_length in H. rewrite H.
  now apply slice_to_length.
Qed.

End Service.

(** C10. With the limit [-1] and one page of three messages, [fetch_emails]
    returns two emails: more than the limit. *)
Theorem fetch_emails_negative_limit :
  exists emails,
    fetch_emails ascii_lower sample_messages_get sample_parse three_messages
        (-1) =
    Ok emails /\
    Z.of_nat (List.length emails) = 2 /\
    ~ Z.of_nat (List.length emails) <= -1.
Proof.
  eexists. split; [reflexivity|]. split; [reflexivity|]. simpl. lia.
Qed.

(** The two pages of the tests, with the limit 2. *)
Example fetch_emails_two_pages :
  option_map (List.map message_id)
    (match fetch_emails ascii_lower sample_messages_get sample_parse two_pages 2
        with
     | Ok emails => Some emails
     | Raise _ => None
     end) = Some ["msg1"; "msg2"].
Proof. reflexivity. Qed.

End Fetcher.


(** ** The loader of the rules document *)

Module Loader.
Import Py GmailRulesProcessor Notions.

Lemma Rule_validate_values (f : FieldName) (p : Predicate) (v : string) :
  Rule_validate (FieldName_value f) (Predicate_value p) v = Ok (mkRule f p v).
Proof.
  destruct f, p as [[]|[]]; reflexivity.
Qed.

Lemma FieldName_of_value_exact (s : string) (f : FieldName) :
  FieldName_of_value s = Some f -> s = FieldName_value f.
Proof.
  unfold FieldName_of_value.
  repeat match goal with
         | |- context [String.eqb s ?k] =>
             destruct (String.eqb_spec s k) as [->|_];
             [intros H; injection H as <-; reflexivity|]
         end.
  discriminate.
Qed.

Lemma Predicate_of_value_exact (s : string) (p : Predicate) :
  Predicate_of_value s = Some p -> s = Predicate_value p.
Proof.
  unfold Predicate_of_value.
  repeat match goal with
         | |- context [String.eqb s ?k] =>
             destruct (String.eqb_spec s k) as [->|_];
             [intros H; injection H as <-; reflexivity|]
         end.
  discriminate.
Qed.

Lemma RulePredicate_of_value_exact (s : string) (p : RulePredicate) :
  RulePredicate_of_value s = Some p -> s = RulePredicate_value p.
Proof.
  unfold RulePredicate_of_value.
  repeat match goal with
         | |- context [String.eqb s ?k] =>
             destruct (String.eqb_spec s k) as [->|_];
             [intros H; injection H as <-; reflexivity|]
         end.
  discriminate.
Qed.

(** X1. The model [Rule] accepts three texts exactly when the first is
    the value of a field name and the second the value of a predicate,
    letter for letter; the rule it builds has that field, that predicate
    and the third text, unchanged, as comparand. *)
Theorem Rule_validate_exact :
  forall (f p v : string) (r : Rule),
    Rule_validate f p v = Ok r <->
    f = FieldName_value (field_name r) /\
    p = Predicate_value (predicate r) /\
    v = value r.
Proof.
  intros f p v r. split.
  - unfold Rule_validate. intros H.
    destruct (FieldName_of_value f) as [f'|] eqn:Hf; [|discriminate].
    destruct (Predicate_of_value p) as [p'|] eqn:Hp; [|discriminate].
    injection H as <-. simpl.
    auto using FieldName_of_value_exact, Predicate_of_value_exact.
  - intros [-> [-> ->]]. destruct r as [f' p' v']. simpl.
    apply Rule_validate_values.
Qed.

Lemma list_items_Forall2 {A} (item : json -> result exn A)
      (items : list json) :
  forall l, list_items item items = Ok l <->
            Forall2 (fun j a => item j = Ok a) items l.
Proof.
  induction items as [|j items IH]; intros l; simpl.
  - split.
    + intros H. injection H as <-. constructor.
    + intros H. inversion H. reflexivity.
  - split.
    + intros H. destruct (item j) as [a|] eqn:Hj; [|discriminate].
      destruct (list_items item items) as [l'|] eqn:Hl; [|discriminate].
      injection H as <-. constructor; [exact Hj | now apply IH].
    + intros H. inversion H as [|j' a items' l' Hj Hl]; subst.
      rewrite Hj. apply IH in Hl. rewrite Hl. reflexivity.
Qed.

Lemma Rule_of_json_document (r : Rule) : Rule_of_json (Rule_document r) = Ok r.
Proof.
  destruct r as [f p v]. unfold Rule_document, Rule_of_json. simpl.
  apply Rule_validate_values.
Qed.

Lemma Action_of_json_document (a : Action) :
  Action_of_json (Action_document a) = Ok a.
Proof.
  destruct a as [[] [s|]]; reflexivity.
Qed.

Lemma list_items_map {A} (item : json -> result exn A) (doc : A -> json)
      (l : list A) :
  (forall a, item (doc a) = Ok a) -> list_items item (map doc l) = Ok l.
Proof.
  intros H. induction l as [|a l IH]; simpl; [reflexivity|].
  now rewrite H, IH.
Qed.

(** X2. Every rule set is the one that [load_rules] returns on its own
    document: rules and actions come back in their order, each with its
    field, predicate, comparand, action type and folder name. *)
Theorem load_rules_document :
  forall rs : RuleSet, load_rules (RuleSet_document rs) = Ok rs.
Proof.
  intros [rs p acts]. unfold RuleSet_document, load_rules. simpl.
  rewrite (list_items_map _ _ rs Rule_of_json_document).
  rewrite (list_items_map _ _ acts Action_of_json_document).
  destruct p; reflexivity.
Qed.

(** X3. When [load_rules] returns a rule set, the document is an object
    whose members "rules" and "actions" are arrays: the rule set has one
    rule per item of the first and one action per item of the second, in
    the order of the document, each one being what the model makes of its
    item; and the member "rule_predicate" is "all" or "any", as the mode
    of the rule set says. Members with other keys play no part. *)
Theorem load_rules_follows_document :
  forall (data : json) (rs : RuleSet),
    load_rules data = Ok rs ->
    exists members items acts,
      data = JObject members /\
      member "rules" members = Some (JArray items) /\
      member "actions" members = Some (JArray acts) /\
      member "rule_predicate" members =
      Some (JString (RulePredicate_value (rule_predicate rs))) /\
      Forall2 (fun j r => Rule_of_json j = Ok r) items (rules rs) /\
      Forall2 (fun j a => Action_of_json j = Ok a) acts (actions rs).
Proof.
  intros data rs H. unfold load_rules in H.
  destruct data as [| | | |?|members]; try discriminate.
  destruct (member "rules" members) as [[| | | |items|]|] eqn:Hr;
    try discriminate.
  unfold str_field in H.
  destruct (member "rule_predicate" members) as [[| | |p| |]|] eqn:Hp;
    try discriminate.
  destruct (member "actions" members) as [[| | | |acts|]|] eqn:Ha;
    try discriminate.
  destruct (list_items Rule_of_json items) as [rs'|] eqn:Hrs;
    [|discriminate].
  destruct (RulePredicate_of_value p) as [p'|] eqn:Hp'; [|discriminate].
  destruct (list_items Action_of_json acts) as [acts'|] eqn:Hacts;
    [|discriminate].
  injection H as <-. simpl.
  exists members, items, acts.
  apply RulePredicate_of_value_exact in Hp'. subst p.
  repeat split; try assumption; try reflexivity; now apply list_items_Forall2.
Qed.

Lemma Rule_validate_exact_witness :
  Rule_validate "received_time" "is greater than" "2 months" =
  Ok (mkRule RECEIVED_TIME (DateP IS_GREATER_THAN) "2 months").
Proof.
  apply (proj2 (Rule_validate_exact "received_time" "is greater than"
                  "2 months"
                  (mkRule RECEIVED_TIME (DateP IS_GREATER_THAN) "2 months"))).
  repeat split.
Defined.

Lemma load_rules_follows_document_witness :
  exists members items acts,
    RuleSet_document Scenarios.sample_ruleset = JObject members /\
    member "rules" members = Some (JArray items) /\
    member "actions" members = Some (JArray acts) /\
    member "rule_predicate" members =
    Some (JString (RulePredicate_value
                     (rule_predicate Scenarios.sample_ruleset))) /\
    Forall2 (fun j r => Rule_of_json j = Ok r) items
            (rules Scenarios.sample_ruleset) /\
    Forall2 (fun j a => Action_of_json j = Ok a) acts
            (actions Scenarios.sample_ruleset).
Proof.
  apply (load_rules_follows_document
           (RuleSet_document Scenarios.sample_ruleset)
           Scenarios.sample_ruleset).
  reflexivity.
Defined.

End Loader.

(** ** More on the predicate evaluator and the resolver *)

Module Predicates.
Import Py GmailRulesProcessor RuleSpec Scenarios Notions PyFacts RuleEngine.

Lemma contains_empty (s : string) : contains "" s = true.
Proof. destruct s; reflexivity. Qed.

Lemma contains_refl (s : string) : contains s s = true.
Proof.
  apply contains_iff. exists "", "". simpl. now rewrite append_empty_r.
Qed.

(** The empty comparand, for a [lower] that empties the empty text
    only. *)
Lemma empty_comparand_lowered (lower : string -> string) (f : FieldName)
      (fv : string) :
  lowers_empty lower ->
  evaluate_string_rule lower (mkRule f (StringP CONTAINS) "") fv = Ok true /\
  evaluate_string_rule lower (mkRule f (StringP DOES_NOT_CONTAIN) "") fv =
  Ok false /\
  (evaluate_string_rule lower (mkRule f (StringP EQUALS) "") fv = Ok true <->
   fv = "").
Proof.
  intros Hlower. unfold evaluate_string_rule.
  cbn [predicate value].
  rewrite (proj2 (Hlower "") eq_refl), contains_empty.
  split; [reflexivity | split; [reflexivity|]].
  split.
  - intros H. injection H as H. apply Hlower.
    destruct (lower fv); [reflexivity | discriminate].
  - intros ->. rewrite (proj2 (Hlower "") eq_refl). reflexivity.
Qed.

Lemma ascii_lower_empty : lowers_empty ascii_lower.
Proof.
  intros s. destruct s; split; solve [reflexivity | discriminate].
Qed.

(** X4. The empty comparand: [contains] holds of every field value and
    [does not contain] of none; [equals] holds of the empty field value
    only. For [str.lower] empties the empty text only. *)
Theorem empty_comparand :
  forall (lower : string -> string) (f : FieldName) (fv : string),
    lowers_empty lower ->
    evaluate_string_rule lower (mkRule f (StringP CONTAINS) "") fv = Ok true /\
    evaluate_string_rule lower (mkRule f (StringP DOES_NOT_CONTAIN) "") fv =
    Ok false /\
    (evaluate_string_rule lower (mkRule f (StringP EQUALS) "") fv = Ok true <->
     fv = "").
Proof.
  intros lower f fv. apply empty_comparand_lowered.
Qed.

Lemma empty_comparand_witness :
  evaluate_string_rule ascii_lower (mkRule SUBJECT (StringP CONTAINS) "")
                       "Hello" = Ok true /\
  evaluate_string_rule ascii_lower (mkRule SUBJECT (StringP DOES_NOT_CONTAIN)
      "")
                       "Hello" = Ok false /\
  (evaluate_string_rule ascii_lower (mkRule SUBJECT (StringP EQUALS) "")
                        "Hello" = Ok true <-> "Hello" = "").
Proof.
  apply (empty_comparand ascii_lower SUBJECT "Hello").
  intros s. destruct s; split; solve [reflexivity | discriminate].
Defined.

(** The same with [ascii_lower], which is [str.lower] on ASCII text. *)
Lemma empty_comparand_ascii_lower (f : FieldName) (fv : string) :
  evaluate_string_rule ascii_lower (mkRule f (StringP CONTAINS) "") fv =
  Ok true /\
  evaluate_string_rule ascii_lower (mkRule f (StringP DOES_NOT_CONTAIN) "") fv =
  Ok false /\
  (evaluate_string_rule ascii_lower (mkRule f (StringP EQUALS) "") fv =
   Ok true <-> fv = "").
Proof.
  apply empty_comparand_lowered, ascii_lower_empty.
Qed.

(** Whenever [equals] holds, so does [contains], and
    [does not contain] fails: a comparand is contained in itself. *)
Lemma equals_implies_contains :
  forall (lower : string -> string) (f : FieldName) (v fv : string),
    evaluate_string_rule lower (mkRule f (StringP EQUALS) v) fv = Ok true ->
    evaluate_string_rule lower (mkRule f (StringP CONTAINS) v) fv = Ok true /\
    evaluate_string_rule lower (mkRule f (StringP DOES_NOT_CONTAIN) v) fv =
    Ok false.
Proof.
  intros lower f v fv. unfold evaluate_string_rule; simpl. intros H.
  injection H as H. apply String.eqb_eq in H. rewrite H, contains_refl.
  split; reflexivity.
Qed.

Lemma equals_implies_contains_witness :
  evaluate_string_rule ascii_lower
    (mkRule SENDER (StringP CONTAINS) "Sender@Example.COM")
    "sender@example.com" = Ok true /\
  evaluate_string_rule ascii_lower
    (mkRule SENDER (StringP DOES_NOT_CONTAIN) "Sender@Example.COM")
    "sender@example.com" = Ok false.
Proof.
  apply (equals_implies_contains ascii_lower SENDER "Sender@Example.COM"
           "sender@example.com").
  reflexivity.
Defined.




(** X6. With an amount that is zero or negative and a number of days,
    the amount or thirty times the amount by the unit, that is not below
    -999999999, on an email that is not from the future, [is less than]
    never holds; with a negative amount [is greater than] always holds.
    Below -999999999 days both kinds raise [OverflowError]. *)
Theorem nonpositive_amount :
  forall lower int fromisoformat clock (v a u : string) (rest : list string)
         (n : Z) (email : Email) (t : nat) (r : Z),
    fromisoformat (received_time email) = Some (Aware r) ->
    split v = a :: u :: rest -> int a = Some n ->
    startswith u "day" = true \/ startswith u "month" = true ->
    n <= 0 -> r <= clock t ->
    let m := if startswith u "day" then n else n * 30 in
    (-999999999 <= m ->
     evaluate_rule lower int fromisoformat clock
       (mkRule RECEIVED_TIME (DateP IS_LESS_THAN) v) email t =
     Ok (false, S t) /\
     (n < 0 ->
      evaluate_rule lower int fromisoformat clock
        (mkRule RECEIVED_TIME (DateP IS_GREATER_THAN) v) email t =
      Ok (true, S t))) /\
    (m < -999999999 ->
     evaluate_rule lower int fromisoformat clock
       (mkRule RECEIVED_TIME (DateP IS_LESS_THAN) v) email t =
     Raise OverflowError /\
     evaluate_rule lower int fromisoformat clock
       (mkRule RECEIVED_TIME (DateP IS_GREATER_THAN) v) email t =
     Raise OverflowError).
Proof.
  intros lower int fromisoformat clock v a u rest n email t r Hstamp Hsplit
         Hint Hu Hn Hr m.
  assert (parse_delta int v = timedelta m /\ m <= 0 /\ (n < 0 -> m < 0))
    as [Hd [Hm0 Hmn]].
  { rewrite (parse_delta_words _ _ _ _ _ _ Hsplit Hint). subst m.
    destruct Hu as [Hu|Hu].
    - rewrite Hu. split; [reflexivity | lia].
    - rewrite (startswith_month_not_day _ Hu), Hu.
      split; [reflexivity | lia]. }
  unfold evaluate_rule, evaluate_date_rule, tbind, datetime_now, lift, ret;
    simpl.
  rewrite Hstamp, Hd; simpl. split.
  - intros Hlo. rewrite timedelta_in_range by lia. simpl. split.
    + f_equal. f_equal. apply Z.ltb_ge. unfold days. lia.
    + intros Hneg. f_equal. f_equal. rewrite Z.gtb_ltb. apply Z.ltb_lt.
      specialize (Hmn Hneg). unfold days. lia.
  - intros Hlo. rewrite timedelta_out_of_range by lia. split; reflexivity.
Qed.

Lemma nonpositive_amount_witness :
  (-999999999 <= -3 ->
   evaluate_rule ascii_lower ascii_int sample_fromisoformat sample_clock
     (mkRule RECEIVED_TIME (DateP IS_LESS_THAN) "-3 days") sample_email 0%nat =
   Ok (false, 1%nat) /\
   (-3 < 0 ->
    evaluate_rule ascii_lower ascii_int sample_fromisoformat sample_clock
      (mkRule RECEIVED_TIME (DateP IS_GREATER_THAN) "-3 days") sample_email
      0%nat = Ok (true, 1%nat))) /\
  (-3 < -999999999 ->
   evaluate_rule ascii_lower ascii_int sample_fromisoformat sample_clock
     (mkRule RECEIVED_TIME (DateP IS_LESS_THAN) "-3 days") sample_email 0%nat =
   Raise OverflowError /\
   evaluate_rule ascii_lower ascii_int sample_fromisoformat sample_clock
     (mkRule RECEIVED_TIME (DateP IS_GREATER_THAN) "-3 days") sample_email
     0%nat = Raise OverflowError).
Proof.
  apply (nonpositive_amount ascii_lower ascii_int sample_fromisoformat
           sample_clock "-3 days" "-3" "days" [] (-3) sample_email 0%nat
           1672574400000000).
  - reflexivity.
  - reflexivity.
  - reflexivity.
  - left. reflexivity.
  - lia.
  - vm_compute. discriminate.
Defined.

(** An amount of days below the range of [timedelta]. *)
Example amount_below_timedelta :
  evaluate_rule ascii_lower ascii_int sample_fromisoformat sample_clock
    (mkRule RECEIVED_TIME (DateP IS_GREATER_THAN) "-1000000000 days")
    sample_email 0%nat = Raise OverflowError.
Proof. reflexivity. Qed.

Section Stamps.

Variable lower : string -> string.
Variable int : string -> option Z.
Variable fromisoformat : string -> option datetime.
Variable clock : nat -> Z.
Variable email : Email.

(** Whatever a rule raises on an email whose stamp does not read is a
    [ValueError]. *)
Lemma unread_stamp_ValueError (r : Rule) (t : nat) (e : exn) :
  fromisoformat (received_time email) = None ->
  evaluate_rule lower int fromisoformat clock r email t = Raise e ->
  is_ValueError e = true.
Proof.
  intros Hstamp. unfold evaluate_rule.
  destruct r as [f p v]; simpl.
  destruct f; simpl;
    try (unfold evaluate_string_rule, lift; simpl;
         destruct p as [[]|[]]; intros H;
         solve [discriminate | injection H as <-; reflexivity]).
  unfold evaluate_date_rule. rewrite Hstamp. unfold raise.
  intros H. injection H as <-. reflexivity.
Qed.

(** A rule on [received_time] raises on such an email. *)
Lemma unread_stamp_raises (r : Rule) (t : nat) :
  fromisoformat (received_time email) = None ->
  field_name r = RECEIVED_TIME ->
  is_raise (evaluate_rule lower int fromisoformat clock r email t) = true.
Proof.
  intros Hstamp Hf. unfold evaluate_rule. rewrite Hf.
  unfold evaluate_date_rule. simpl. rewrite Hstamp. reflexivity.
Qed.

(** A rule that returns has read the clock once if it is on
    [received_time] and not at all otherwise. *)
Lemma evaluate_rule_readings (r : Rule) (t t1 : nat) (b : bool) :
  evaluate_rule lower int fromisoformat clock r email t = Ok (b, t1) ->
  t1 = (t + List.length (date_rules [r]))%nat.
Proof.
  unfold evaluate_rule, date_rules. destruct r as [f p v]; simpl.
  destruct f; simpl;
    try (unfold lift; destruct (evaluate_string_rule lower _ _); intros H;
         [injection H as _ <-; lia | discriminate]).
  unfold evaluate_date_rule, tbind, datetime_now, lift, ret, raise.
  destruct (fromisoformat _); [|discriminate].
  destruct (parse_delta int _); [|discriminate].
  cbn [predicate].
  destruct p as [[]|[]]; try discriminate;
    destruct (datetime_sub _ _); try discriminate;
    intros H; injection H as _ <-; lia.
Qed.

Lemma evaluations_readings (rs : list Rule) (t t' : nat) (bs : list bool) :
  evaluations lower int fromisoformat clock email rs t bs t' ->
  t' = (t + List.length (date_rules rs))%nat.
Proof.
  induction 1 as [t|r rs t t1 t2 b bs Hr Hrs IH].
  - simpl. lia.
  - apply evaluate_rule_readings in Hr. subst t1 t2.
    unfold date_rules. simpl.
    destruct (negb (is_text_field (field_name r))); simpl; lia.
Qed.

(** The comprehension raises what the first rule that raises does. *)
Lemma comprehension_first_raise (pre post : list Rule) (r : Rule)
      (t t1 : nat) (bs : list bool) (e : exn) :
  evaluations lower int fromisoformat clock email pre t bs t1 ->
  evaluate_rule lower int fromisoformat clock r email t1 = Raise e ->
  comprehension (fun rule => evaluate_rule lower int fromisoformat clock rule
      email)
                (pre ++ r :: post) t = Raise e.
Proof.
  intros Hpre Hr.
  induction Hpre as [t|r0 rs t t0 t2 b bs H0 Hrs IH]; simpl; unfold tbind.
  - rewrite Hr. reflexivity.
  - rewrite H0. rewrite (IH Hr). reflexivity.
Qed.

End Stamps.

(** X7. On an email whose stamp does not read, every rule set that has a
    rule on [received_time] makes [apply_rules] raise, wherever that rule
    stands and whatever its kind and comparand; what is raised is a
    [ValueError]. *)
Theorem unread_stamp_raises_ValueError :
  forall lower int fromisoformat clock (ruleset : RuleSet) (email : Email) (t :
      nat),
    fromisoformat (received_time email) = None ->
    (exists r, In r (rules ruleset) /\ field_name r = RECEIVED_TIME) ->
    exists e,
      apply_rules lower int fromisoformat clock ruleset email t = Raise e /\
      is_ValueError e = true.
Proof.
  intros lower int fromisoformat clock ruleset email t Hstamp [r [Hin Hf]].
  destruct (comprehension_raises lower int fromisoformat clock email (rules
      ruleset) t)
    as [e [r' [t1 [He [_ Hr']]]]].
  - exists r. split; [exact Hin|]. intros t1.
    now apply unread_stamp_raises.
  - exists e. split.
    + unfold apply_rules, tbind. rewrite He. reflexivity.
    + exact (unread_stamp_ValueError lower int fromisoformat clock email r' t1 e
               Hstamp Hr').
Qed.

Lemma unread_stamp_raises_ValueError_witness :
  exists e,
    apply_rules ascii_lower ascii_int sample_fromisoformat sample_clock
        sender_then_age
                bad_stamp_email 0%nat = Raise e /\
    is_ValueError e = true.
Proof.
  apply (unread_stamp_raises_ValueError ascii_lower ascii_int
      sample_fromisoformat sample_clock
           sender_then_age bad_stamp_email 0%nat).
  - reflexivity.
  - exists (mkRule RECEIVED_TIME (DateP IS_LESS_THAN) "7 days").
    split; [simpl; auto | reflexivity].
Defined.

(** X8. When [apply_rules] returns, it has read the clock once for each
    rule on [received_time] of the rule set, and not once for the rules on
    the text fields. *)
Theorem apply_rules_reads_clock_per_date_rule :
  forall lower int fromisoformat clock (ruleset : RuleSet) (email : Email)
         (t t' : nat) (acts : list Action),
    apply_rules lower int fromisoformat clock ruleset email t = Ok (acts, t') ->
    t' = (t + List.length (date_rules (rules ruleset)))%nat.
Proof.
  intros lower int fromisoformat clock ruleset email t t' acts H.
  destruct (apply_rules_returns _ _ _ _ _ _ _ _ _ H) as [bs Hbs].
  exact (evaluations_readings _ _ _ _ _ _ _ _ _ Hbs).
Qed.

Lemma apply_rules_reads_clock_per_date_rule_witness :
  1%nat = (0 + List.length (date_rules (rules sender_then_age)))%nat.
Proof.
  apply (apply_rules_reads_clock_per_date_rule ascii_lower ascii_int
           sample_fromisoformat sample_clock sender_then_age sample_email 0%nat
               1%nat
           [mkAction MARK_AS_READ None]).
  reflexivity.
Defined.

(** X9. [apply_rules] raises what the first rule that raises does: when
    the rules before a rule evaluate to booleans and that rule raises, its
    exception is the one that leaves [apply_rules], whatever the rules
    after it are. *)
Theorem apply_rules_raises_first_error :
  forall lower int fromisoformat clock (ruleset : RuleSet) (email : Email)
         (pre post : list Rule) (r : Rule) (t t1 : nat) (bs : list bool)
         (e : exn),
    rules ruleset = (pre ++ r :: post)%list ->
    evaluations lower int fromisoformat clock email pre t bs t1 ->
    evaluate_rule lower int fromisoformat clock r email t1 = Raise e ->
    apply_rules lower int fromisoformat clock ruleset email t = Raise e.
Proof.
  intros lower int fromisoformat clock ruleset email pre post r t t1 bs e Hrules
      Hpre Hr.
  unfold apply_rules, tbind. rewrite Hrules.
  rewrite (comprehension_first_raise _ _ _ _ _ pre post r t t1 bs e Hpre Hr).
  reflexivity.
Qed.

Lemma apply_rules_raises_first_error_witness :
  apply_rules ascii_lower ascii_int sample_fromisoformat sample_clock
      decided_then_malformed
              sample_email 0%nat =
  Raise (ValueError_string_predicate (DateP IS_LESS_THAN)).
Proof.
  apply (apply_rules_raises_first_error ascii_lower ascii_int
      sample_fromisoformat sample_clock
           decided_then_malformed sample_email
           [mkRule SENDER (StringP CONTAINS) "example.com"] []
           (mkRule SUBJECT (DateP IS_LESS_THAN) "7 days")
           0%nat 0%nat [true]).
  - reflexivity.
  - apply evaluations_cons with (t1 := 0%nat); [reflexivity|].
    apply evaluations_nil.
  - reflexivity.
Defined.

(** X10. A rule set with at least one rule and at least one action that
    matches an email under [all] matches it under [any] as well, with the
    same readings of the clock. *)
Theorem all_match_is_any_match :
  forall lower int fromisoformat clock (rs : list Rule) (acts : list Action)
         (email : Email) (t t' : nat),
    rs <> [] -> acts <> [] ->
    apply_rules lower int fromisoformat clock (mkRuleSet rs ALL acts) email t =
    Ok (acts, t') ->
    apply_rules lower int fromisoformat clock (mkRuleSet rs ANY acts) email t =
    Ok (acts, t').
Proof.
  intros lower int fromisoformat clock rs acts email t t' Hrs Hacts.
  destruct rs as [|r rs]; [contradiction|].
  unfold apply_rules, tbind; simpl. unfold tbind.
  destruct (evaluate_rule lower int fromisoformat clock r email t) as [[b
      t1]|e];
    [|discriminate].
  destruct (comprehension _ rs t1) as [[bs t2]|e]; [|discriminate].
  unfold ret, all, any; simpl.
  destruct b; simpl.
  - destruct (forallb (fun b => b) bs); intros H; [exact H|].
    injection H as H _. symmetry in H. contradiction.
  - intros H. injection H as H _. symmetry in H. contradiction.
Qed.

Lemma all_match_is_any_match_witness :
  apply_rules ascii_lower ascii_int sample_fromisoformat sample_clock
    (mkRuleSet (rules sample_ruleset) ANY (actions sample_ruleset))
    sample_email 0%nat = Ok (actions sample_ruleset, 0%nat).
Proof.
  apply (all_match_is_any_match ascii_lower ascii_int sample_fromisoformat
      sample_clock
           (rules sample_ruleset) (actions sample_ruleset) sample_email
           0%nat 0%nat).
  - discriminate.
  - discriminate.
  - reflexivity.
Defined.

Section TextRules.

Variable lower : string -> string.
Variable int : string -> option Z.
Variable fromisoformat : string -> option datetime.
Variable clock : nat -> Z.
Variable email : Email.

(** The comprehension over rules on text fields that all return. *)
Lemma text_comprehension_returns (rs : list Rule) (t : nat) :
  (forall r, In r rs -> is_text_field (field_name r) = true) ->
  forallb (evaluates lower email) rs = true ->
  comprehension (fun rule => evaluate_rule lower int fromisoformat clock rule
      email)
                rs t = Ok (map (holds lower email) rs, t).
Proof.
  induction rs as [|r rs IH]; intros Htext Hall; simpl; [reflexivity|].
  simpl in Hall. apply andb_true_iff in Hall as [Hr Hall].
  unfold tbind.
  rewrite (evaluate_rule_text lower int fromisoformat clock r email t)
    by (apply Htext; now left).
  unfold evaluates, holds in *.
  destruct (evaluate_string_rule lower r (getattr email (field_name r)));
    [|discriminate].
  simpl. rewrite IH; [reflexivity | | exact Hall].
  intros r' Hr'. apply Htext. now right.
Qed.

(** The comprehension over rules on text fields one of which raises. *)
Lemma text_comprehension_raises (rs : list Rule) (t : nat) :
  (forall r, In r rs -> is_text_field (field_name r) = true) ->
  forallb (evaluates lower email) rs = false ->
  is_raise (comprehension
              (fun rule => evaluate_rule lower int fromisoformat clock rule
                  email)
              rs t) = true.
Proof.
  induction rs as [|r rs IH]; intros Htext Hall; simpl; [discriminate|].
  simpl in Hall. unfold tbind.
  rewrite (evaluate_rule_text lower int fromisoformat clock r email t)
    by (apply Htext; now left).
  unfold evaluates in Hall at 1.
  destruct (evaluate_string_rule lower r (getattr email (field_name r)));
    [|reflexivity].
  simpl in *.
  assert (is_raise
            (comprehension
               (fun rule => evaluate_rule lower int fromisoformat clock rule
                   email)
               rs t) = true) as Hrs.
  { apply IH; [|exact Hall]. intros r' Hr'. apply Htext. now right. }
  destruct (comprehension _ rs t) as [[bs t1]|e]; [discriminate|reflexivity].
Qed.

End TextRules.

Lemma forallb_same_elements {A} (f : A -> bool) (l l' : list A) :
  (forall x, In x l <-> In x l') -> forallb f l = forallb f l'.
Proof.
  intros H. apply eq_true_iff_eq. rewrite !forallb_forall.
  split; intros Hf x Hx; apply Hf, H, Hx.
Qed.

Lemma existsb_same_elements {A} (f : A -> bool) (l l' : list A) :
  (forall x, In x l <-> In x l') -> existsb f l = existsb f l'.
Proof.
  intros H. apply eq_true_iff_eq. rewrite !existsb_exists.
  split; intros [x [Hx Hf]]; exists x; split; try exact Hf; apply H, Hx.
Qed.

Lemma forallb_id_map {A} (f : A -> bool) (l : list A) :
  forallb (fun b => b) (map f l) = forallb f l.
Proof.
  induction l as [|a l IH]; simpl; [reflexivity | now rewrite IH].
Qed.

Lemma existsb_id_map {A} (f : A -> bool) (l : list A) :
  existsb (fun b => b) (map f l) = existsb f l.
Proof.
  induction l as [|a l IH]; simpl; [reflexivity | now rewrite IH].
Qed.

(** X11. For rules on text fields, neither their order nor their
    repetition matters: two rule sets with the same mode and the same
    actions whose rules are the same up to order and repetition return the
    same action list on every email, and one raises exactly when the other
    does. *)
Theorem text_rules_order_is_irrelevant :
  forall lower int fromisoformat clock (rs rs' : list Rule) (mode :
      RulePredicate)
         (acts : list Action) (email : Email) (t : nat),
    (forall r, In r rs -> is_text_field (field_name r) = true) ->
    (forall r, In r rs <-> In r rs') ->
    forall out : list Action * nat,
      apply_rules lower int fromisoformat clock (mkRuleSet rs mode acts) email t
          =
      Ok out <->
      apply_rules lower int fromisoformat clock (mkRuleSet rs' mode acts) email
          t =
      Ok out.
Proof.
  intros lower int fromisoformat clock rs rs' mode acts email t Htext Hsame out.
  assert (forall r, In r rs' -> is_text_field (field_name r) = true)
    as Htext' by (intros r Hr; apply Htext, Hsame, Hr).
  unfold apply_rules, tbind; simpl.
  destruct (forallb (evaluates lower email) rs) eqn:Hev.
  - rewrite (text_comprehension_returns _ _ _ _ _ rs t Htext Hev).
    rewrite (forallb_same_elements _ _ _ Hsame) in Hev.
    rewrite (text_comprehension_returns _ _ _ _ _ rs' t Htext' Hev).
    unfold all, any. rewrite !forallb_id_map, !existsb_id_map.
    rewrite (forallb_same_elements (holds lower email) _ _ Hsame).
    rewrite (existsb_same_elements (holds lower email) _ _ Hsame).
    reflexivity.
  - pose proof (text_comprehension_raises lower int fromisoformat clock email rs
      t
                  Htext Hev) as H1.
    rewrite (forallb_same_elements _ _ _ Hsame) in Hev.
    pose proof (text_comprehension_raises lower int fromisoformat clock email
        rs' t
                  Htext' Hev) as H2.
    destruct (comprehension _ rs t) as [[bs t1]|e]; [discriminate|].
    destruct (comprehension _ rs' t) as [[bs' t1']|e']; [discriminate|].
    split; discriminate.
Qed.

Lemma text_rules_order_is_irrelevant_witness :
  apply_rules ascii_lower ascii_int sample_fromisoformat sample_clock
      sample_ruleset sample_email
              0%nat = Ok (actions sample_ruleset, 0%nat) <->
  apply_rules ascii_lower ascii_int sample_fromisoformat sample_clock
      sample_ruleset_shuffled
              sample_email 0%nat = Ok (actions sample_ruleset, 0%nat).
Proof.
  apply (text_rules_order_is_irrelevant ascii_lower ascii_int
      sample_fromisoformat sample_clock
           (rules sample_ruleset) (rules sample_ruleset_shuffled) ALL
           (actions sample_ruleset) sample_email 0%nat).
  - intros r [<-|[<-|[]]]; reflexivity.
  - intros r. simpl. tauto.
Defined.

End Predicates.

(** ** More on the action dispatcher *)

Module Labels.
Import Py GmailRulesProcessor Scenarios Notions.

Section Service.

Variable provider : Type.
Variable labels_list : provider -> result exn (option (list Label)) * provider.
Variable labels_create : string -> provider -> result exn Label * provider.
Variable messages_modify :
  string -> ModifyBody -> provider -> result exn unit * provider.

(** [find_label] returns the id of the first label with the name. *)
Lemma find_label_first (pre post : list Label) (l : Label) (name : string) :
  label_name l = name ->
  (forall l', In l' pre -> label_name l' <> name) ->
  find_label (pre ++ l :: post) name = Some (label_id l).
Proof.
  intros Hl Hpre. induction pre as [|l0 pre IH]; simpl.
  - rewrite (proj2 (String.eqb_eq _ _) Hl). reflexivity.
  - destruct (String.eqb_spec (label_name l0) name) as [Heq|_].
    + exfalso. apply (Hpre l0); [now left | exact Heq].
    + apply IH. intros l' Hl'. apply Hpre. now right.
Qed.

Lemma find_label_none (labels : list Label) (name : string) :
  (forall l, In l labels -> label_name l <> name) ->
  find_label labels name = None.
Proof.
  intros H. induction labels as [|l0 labels IH]; simpl; [reflexivity|].
  destruct (String.eqb_spec (label_name l0) name) as [Heq|_].
  - exfalso. apply (H l0); [now left | exact Heq].
  - apply IH. intros l Hl. apply H. now right.
Qed.

(** X12. Whatever the service does, [get_or_create_label] on a folder
    name either returns a label id and logs nothing, or raises the
    validation error and has logged exactly one error: an exception of the
    service never leaves it. *)
Theorem get_or_create_label_outcomes :
  forall (name : string) (w : world provider),
    let r := get_or_create_label provider labels_list labels_create
                                 (Some name) w in
    (exists id, fst r = Ok id /\ snd (snd r) = snd w) \/
    (fst r = Raise ValidationError /\
     exists e, snd (snd r) = (snd w ++ [log_error_label e])%list).
Proof.
  intros name [p lg].
  unfold get_or_create_label, get_or_create_label_body, io_try, io_bind,
    call, log, io_ret, io_raise; simpl.
  destruct (labels_list p) as [[[labels|]|e] p1]; simpl.
  - destruct (find_label labels name) as [id|]; simpl.
    + left. now exists id.
    + destruct (labels_create name p1) as [[l|e] p2]; simpl.
      * left. now exists (label_id l).
      * right. split; [reflexivity | now exists e].
  - right. split; [reflexivity | now exists (KeyError "labels")].
  - right. split; [reflexivity | now exists e].
Qed.

(** X13. A label that is listed is not created: when the listing holds a
    label with the folder name, [get_or_create_label] returns the id of
    the first such label, leaves the provider as the listing left it and
    logs nothing; the names are compared letter for letter. *)
Theorem listed_label_is_returned :
  forall (name : string) (pre post : list Label) (l : Label)
         (p p1 : provider) (lg : list log_record),
    labels_list p = (Ok (Some (pre ++ l :: post)%list), p1) ->
    label_name l = name ->
    (forall l', In l' pre -> label_name l' <> name) ->
    get_or_create_label provider labels_list labels_create (Some name)
                        (p, lg) = (Ok (label_id l), (p1, lg)).
Proof.
  intros name pre post l p p1 lg Hlist Hl Hpre.
  unfold get_or_create_label, get_or_create_label_body, io_try, io_bind,
    call, io_ret; simpl.
  rewrite Hlist. rewrite (find_label_first pre post l name Hl Hpre).
  reflexivity.
Qed.

(** A label that is not listed is created: when no listed label has
    the folder name and the creation answers, [get_or_create_label]
    returns the id of the created label and logs nothing. *)
Lemma missing_label_is_created :
  forall (name : string) (labels : list Label) (l : Label)
         (p p1 p2 : provider) (lg : list log_record),
    labels_list p = (Ok (Some labels), p1) ->
    (forall l', In l' labels -> label_name l' <> name) ->
    labels_create name p1 = (Ok l, p2) ->
    get_or_create_label provider labels_list labels_create (Some name)
                        (p, lg) = (Ok (label_id l), (p2, lg)).
Proof.
  intros name labels l p p1 p2 lg Hlist Hnone Hcreate.
  unfold get_or_create_label, get_or_create_label_body, io_try, io_bind,
    call, io_ret; simpl.
  rewrite Hlist. rewrite (find_label_none labels name Hnone). simpl.
  rewrite Hcreate. reflexivity.
Qed.

(** X14. The actions of a list are run in order and the first one that
    raises ends the run: [execute_actions] on a list followed by another
    runs the first list and then, if no action raised, the actions of the
    second from where the first left the provider and the log; if an
    action of the first raised, none of the second is run. *)
Theorem execute_actions_in_order :
  forall (email : Email) (first second : list Action) (w : world provider),
    execute_actions provider labels_list labels_create messages_modify
                    email (first ++ second)%list w =
    match execute_actions provider labels_list labels_create messages_modify
                          email first w with
    | (Ok _, w1) =>
        for_each provider labels_list labels_create messages_modify
                 email second w1
    | (Raise e, w1) => (Raise e, w1)
    end.
Proof.
  intros email first second w.
  unfold execute_actions, io_bind, log. cbn iota beta.
  generalize (fst w, (snd w ++ [log_info "Executing actions"])%list).
  induction first as [|a first IH]; intros w0; simpl.
  - reflexivity.
  - unfold io_bind.
    destruct (execute_action provider labels_list labels_create
                messages_modify email a w0) as [[[]|e] w1].
    + apply IH.
    + reflexivity.
Qed.

End Service.

(** X15. Marks never involve the labels: on a list of actions without a
    move, [execute_actions] gives the same outcome, provider and log
    whatever the listing and the creation of labels would answer. *)
Theorem marks_ignore_labels :
  forall (provider : Type)
         (labels_list labels_list' :
            provider -> result exn (option (list Label)) * provider)
         (labels_create labels_create' :
            string -> provider -> result exn Label * provider)
         (messages_modify :
            string -> ModifyBody -> provider -> result exn unit * provider)
         (email : Email) (acts : list Action) (w : world provider),
    forallb is_mark acts = true ->
    execute_actions provider labels_list labels_create messages_modify
                    email acts w =
    execute_actions provider labels_list' labels_create' messages_modify
                    email acts w.
Proof.
  intros provider ll ll' lc lc' mm email acts w Hmarks.
  unfold execute_actions, io_bind, log. cbn iota beta.
  generalize (fst w, (snd w ++ [log_info "Executing actions"])%list).
  induction acts as [|a acts IH]; intros w0; simpl; [reflexivity|].
  simpl in Hmarks. apply andb_true_iff in Hmarks as [Ha Hmarks].
  unfold io_bind.
  assert (execute_action provider ll lc mm email a w0 =
          execute_action provider ll' lc' mm email a w0) as ->.
  { unfold execute_action, is_mark in *.
    destruct (action_type a); [reflexivity | reflexivity | discriminate]. }
  destruct (execute_action provider ll' lc' mm email a w0) as [[[]|e] w1];
    [now apply IH | reflexivity].
Qed.

Lemma listed_label_is_returned_witness :
  get_or_create_label (list request) important_labels_list
                      recording_labels_create (Some "Important") ([], []) =
  (Ok "Label_7", ([labels_list_request], [])).
Proof.
  apply (listed_label_is_returned (list request) important_labels_list
           recording_labels_create "Important"
           [mkLabel "INBOX" "INBOX"] [mkLabel "Label_9" "Important"]
           (mkLabel "Label_7" "Important") [] [labels_list_request] []).
  - reflexivity.
  - reflexivity.
  - intros l' [<-|[]]. discriminate.
Defined.

Lemma missing_label_is_created_witness :
  get_or_create_label (list request) inbox_labels_list
                      recording_labels_create (Some "Important") ([], []) =
  (Ok "Label_Important",
   ([labels_list_request; labels_create_request "Important"], [])).
Proof.
  apply (missing_label_is_created (list request) inbox_labels_list
           recording_labels_create "Important"
           [mkLabel "INBOX" "INBOX"] (mkLabel "Label_Important" "Important")
           [] [labels_list_request]
           [labels_list_request; labels_create_request "Important"] []).
  - reflexivity.
  - intros l' [<-|[]]. discriminate.
  - reflexivity.
Defined.

Lemma marks_ignore_labels_witness :
  execute_actions (list request) failing_labels_list recording_labels_create
                  recording_messages_modify sample_email marks_only ([], []) =
  execute_actions (list request) inbox_labels_list recording_labels_create
                  recording_messages_modify sample_email marks_only ([], []).
Proof.
  apply (marks_ignore_labels (list request) failing_labels_list
           inbox_labels_list recording_labels_create recording_labels_create
           recording_messages_modify sample_email marks_only ([], [])).
  reflexivity.
Defined.

End Labels.

(** ** The stored emails and the batch *)

Module Batch.
Import Py GmailRulesProcessor Scenarios Notions.

Lemma text_of_Some (v : Sqlite.value) (s : string) :
  text_of v = Some s <-> holds_text v s.
Proof.
  unfold holds_text, text_of, decode. destruct v as [| | |x|x]; split;
    try discriminate;
    try (intros [H|[H _]]; discriminate).
  - intros H. injection H as <-. now left.
  - intros [H|[H _]]; [injection H as <-; reflexivity | discriminate].
  - destruct (valid_utf8 x) eqn:Hx; [|discriminate].
    intros H. injection H as <-. right. split; [reflexivity | exact Hx].
  - intros [H|[H Hs]]; [discriminate|].
    injection H as <-. rewrite Hs. reflexivity.
Qed.

(** X16. [get_emails_from_db] returns one email per row, in the order of
    the table; each email holds the texts of the first six columns of its
    row, as message id, sender, recipient, message, received time and
    subject, and further columns play no part. It returns only if each of
    the six columns of every row holds a text: as a text, or as bytes
    that are the UTF-8 encoding of one. *)
Theorem get_emails_from_db_rows :
  forall (rows : Sqlite.table) (emails : list Email),
    get_emails_from_db rows = Ok emails <->
    Forall2 (fun row email =>
               exists c0 c1 c2 c3 c4 c5 rest,
                 row = (c0 :: c1 :: c2 :: c3 :: c4 :: c5 :: rest)%list /\
                 holds_text c0 (message_id email) /\
                 holds_text c1 (sender email) /\
                 holds_text c2 (recipient email) /\
                 holds_text c3 (message email) /\
                 holds_text c4 (received_time email) /\
                 holds_text c5 (subject email))
            rows emails.
Proof.
  induction rows as [|row rows IH]; intros emails; simpl.
  - split.
    + intros H. injection H as <-. constructor.
    + intros H. inversion H. reflexivity.
  - unfold bind. split.
    + intros H.
      destruct (Email_of_row row) as [email|] eqn:Hrow; [|discriminate].
      destruct (get_emails_from_db rows) as [emails'|] eqn:Hrows;
        [|discriminate].
      injection H as <-. constructor; [|now apply IH].
      unfold Email_of_row in Hrow.
      destruct row as [|c0 [|c1 [|c2 [|c3 [|c4 [|c5 rest]]]]]];
        try discriminate.
      destruct (text_of c0) eqn:H0; [|discriminate].
      destruct (text_of c1) eqn:H1; [|discriminate].
      destruct (text_of c2) eqn:H2; [|discriminate].
      destruct (text_of c3) eqn:H3; [|discriminate].
      destruct (text_of c4) eqn:H4; [|discriminate].
      destruct (text_of c5) eqn:H5; [|discriminate].
      injection Hrow as <-. simpl. exists c0, c1, c2, c3, c4, c5, rest.
      apply text_of_Some in H0, H1, H2, H3, H4, H5. tauto.
    + intros H.
      inversion H as [|row' email rows' emails'
                        [c0 [c1 [c2 [c3 [c4 [c5 [rest Hrow]]]]]]] Hrows];
        subst.
      destruct Hrow as [-> [H0 [H1 [H2 [H3 [H4 H5]]]]]].
      apply text_of_Some in H0, H1, H2, H3, H4, H5.
      unfold Email_of_row. rewrite H0, H1, H2, H3, H4, H5.
      destruct email as [id s r m t subj]. simpl.
      apply IH in Hrows. rewrite Hrows. reflexivity.
Qed.

(** One row that the model refuses makes the whole reading raise. *)
Lemma get_emails_from_db_bad_row (rows : Sqlite.table) (row : Sqlite.row) :
  In row rows -> is_raise (Email_of_row row) = true ->
  is_raise (get_emails_from_db rows) = true.
Proof.
  induction rows as [|row0 rows IH]; intros Hin Hbad; [destruct Hin|].
  simpl. unfold bind.
  destruct (Email_of_row row0) as [email|] eqn:H0; [|reflexivity].
  destruct Hin as [->|Hin]; [rewrite H0 in Hbad; discriminate|].
  specialize (IH Hin Hbad).
  destruct (get_emails_from_db rows); [discriminate | reflexivity].
Qed.

Section Run.

Variable lower : string -> string.
Variable int : string -> option Z.
Variable fromisoformat : string -> option datetime.
Variable clock : nat -> Z.
Variable provider : Type.
Variable labels_list : provider -> result exn (option (list Label)) * provider.
Variable labels_create : string -> provider -> result exn Label * provider.
Variable messages_modify :
  string -> ModifyBody -> provider -> result exn unit * provider.

(** What [apply_rules] returns is the action list of the rule set or the
    empty list. *)
Lemma apply_rules_actions_or_empty (ruleset : RuleSet) (email : Email)
      (t t' : nat) (acts : list Action) :
  apply_rules lower int fromisoformat clock ruleset email t = Ok (acts, t') ->
  acts = actions ruleset \/ acts = [].
Proof.
  unfold apply_rules, tbind, ret.
  destruct (comprehension _ (rules ruleset) t) as [[bs t1]|e];
    [|discriminate].
  destruct (rule_predicate ruleset);
    [destruct (all bs) | destruct (any bs)];
    intros H; injection H as <- _; auto.
Qed.

(** X17. A rule set without actions never touches the mailbox: whatever
    the emails, and whether the run ends or an evaluation raises, [main]'s
    loop leaves the provider and the log as they were. *)
Theorem rule_set_without_actions_is_inert :
  forall (ruleset : RuleSet) (emails : list Email) (t : nat)
         (w : world provider),
    actions ruleset = [] ->
    snd (process lower int fromisoformat clock provider labels_list
        labels_create
                 messages_modify ruleset emails t w) = w.
Proof.
  intros ruleset emails t w Hnone. revert t.
  induction emails as [|email emails IH]; intros t; simpl; [reflexivity|].
  destruct (apply_rules lower int fromisoformat clock ruleset email t)
    as [[acts t']|e] eqn:H; [|reflexivity].
  destruct (apply_rules_actions_or_empty _ _ _ _ _ H) as [->| ->].
  - rewrite Hnone. apply IH.
  - apply IH.
Qed.

(** X18. The emails are processed in order and the first exception ends
    the batch: the loop on a list of emails followed by another processes
    the first list and then, if nothing raised, the second from the clock,
    the provider and the log that the first left; if something raised, no
    email of the second is looked at and what was done stays done. *)
Theorem process_in_order :
  forall (ruleset : RuleSet) (first second : list Email) (t : nat)
         (w : world provider),
    process lower int fromisoformat clock provider labels_list labels_create
            messages_modify ruleset (first ++ second)%list t w =
    match process lower int fromisoformat clock provider labels_list
        labels_create
                  messages_modify ruleset first t w with
    | (Ok t1, w1) =>
        process lower int fromisoformat clock provider labels_list labels_create
                messages_modify ruleset second t1 w1
    | (Raise e, w1) => (Raise e, w1)
    end.
Proof.
  intros ruleset first second. induction first as [|email first IH];
    intros t w; simpl; [reflexivity|].
  destruct (apply_rules lower int fromisoformat clock ruleset email t)
    as [[acts t']|e]; [|reflexivity].
  destruct acts as [|a acts]; [apply IH|].
  destruct (execute_actions provider labels_list labels_create
              messages_modify email (a :: acts) w) as [[[]|e] w1];
    [apply IH | reflexivity].
Qed.

(** X19. One stored row that the model [Email] refuses, a column that is
    missing or is not a text, ends [main] before any email is evaluated:
    [main] raises and leaves the provider and the log as they were, also
    when that row is the last of the table. *)
Theorem bad_row_ends_main :
  forall (data : json) (rows : Sqlite.table) (row : Sqlite.row) (t : nat)
         (w : world provider),
    In row rows -> is_raise (Email_of_row row) = true ->
    exists e,
      main lower int fromisoformat clock provider labels_list labels_create
           messages_modify data rows t w = (Raise e, w).
Proof.
  intros data rows row t w Hin Hbad. unfold main.
  destruct (load_rules data) as [ruleset|e]; [|now exists e].
  pose proof (get_emails_from_db_bad_row rows row Hin Hbad) as H.
  destruct (get_emails_from_db rows) as [emails|e]; [discriminate|].
  now exists e.
Qed.

End Run.

Lemma get_emails_from_db_rows_witness :
  get_emails_from_db [sample_row; row_with_bytes] =
  Ok [sample_email; sample_email].
Proof.
  apply (proj2 (get_emails_from_db_rows [sample_row; row_with_bytes]
                  [sample_email; sample_email])).
  constructor; [|constructor; [|constructor]].
  - do 6 eexists. exists []. split; [reflexivity|].
    repeat split; left; reflexivity.
  - do 6 eexists. exists []. split; [reflexivity|].
    repeat split; try (left; reflexivity).
    right. split; reflexivity.
Defined.

(** Bytes that encode no text are refused. *)
Example undecodable_bytes_refused :
  get_emails_from_db
    [[ Sqlite.Text "125"; Sqlite.Blob (String (ascii_of_nat 255) "");
       Sqlite.Text "recipient@test.com"; Sqlite.Text "Hello.";
       Sqlite.Text "2023-01-01T12:00:00+00:00"; Sqlite.Text "Bytes" ]] =
  Raise ValidationError.
Proof. reflexivity. Qed.

Lemma rule_set_without_actions_is_inert_witness :
  snd (process ascii_lower ascii_int sample_fromisoformat sample_clock (list
      request)
               failing_labels_list recording_labels_create
               recording_messages_modify silent_ruleset
               [sample_email; non_matching_email] 0%nat ([], [])) = ([], []).
Proof.
  apply (rule_set_without_actions_is_inert ascii_lower ascii_int
      sample_fromisoformat sample_clock
           (list request) failing_labels_list recording_labels_create
           recording_messages_modify silent_ruleset
           [sample_email; non_matching_email] 0%nat ([], [])).
  reflexivity.
Defined.

Lemma bad_row_ends_main_witness :
  exists e,
    main ascii_lower ascii_int sample_fromisoformat sample_clock (list request)
         inbox_labels_list recording_labels_create recording_messages_modify
         (RuleSet_document sample_ruleset) [sample_row; row_without_sender]
         0%nat ([], []) = (Raise e, ([], [])).
Proof.
  apply (bad_row_ends_main ascii_lower ascii_int sample_fromisoformat
      sample_clock (list request)
           inbox_labels_list recording_labels_create
           recording_messages_modify (RuleSet_document sample_ruleset)
           [sample_row; row_without_sender] row_without_sender 0%nat
           ([], [])).
  - simpl. auto.
  - reflexivity.
Defined.

End Batch.

(** ** More on the fetcher *)

Module Mailbox.
Import Py GmailFetch Scenarios Notions Fetcher.

(** A header with the name sets the value kept for that name. *)
Lemma read_header_named (lower : string -> string) (n : string)
      (env : Envelope) (h : Header) (v0 : string) :
  envelope_value n env = Some v0 ->
  header_named lower n h = true ->
  envelope_value n (read_header lower env h) = Some (value h).
Proof.
  unfold envelope_value, header_named, read_header.
  intros Hn Hh. apply String.eqb_eq in Hh. rewrite Hh.
  destruct (String.eqb_spec n "from") as [->|_]; [reflexivity|].
  destruct (String.eqb_spec n "subject") as [->|_]; [reflexivity|].
  destruct (String.eqb_spec n "date") as [->|_]; [reflexivity|].
  destruct (String.eqb_spec n "to") as [->|_]; [reflexivity|].
  discriminate.
Qed.

(** A header with another name leaves it. *)
Lemma read_header_other (lower : string -> string) (n : string)
      (env : Envelope) (h : Header) :
  header_named lower n h = false ->
  envelope_value n (read_header lower env h) = envelope_value n env.
Proof.
  unfold envelope_value, header_named, read_header. intros Hh.
  destruct (String.eqb_spec n "from") as [->|_];
    [rewrite Hh;
     repeat match goal with
            | |- context [String.eqb (lower (name h)) ?k] =>
                destruct (String.eqb (lower (name h)) k)
            end; reflexivity|].
  destruct (String.eqb_spec n "subject") as [->|_];
    [rewrite Hh;
     repeat match goal with
            | |- context [String.eqb (lower (name h)) ?k] =>
                destruct (String.eqb (lower (name h)) k)
            end; reflexivity|].
  destruct (String.eqb_spec n "date") as [->|_];
    [rewrite Hh;
     repeat match goal with
            | |- context [String.eqb (lower (name h)) ?k] =>
                destruct (String.eqb (lower (name h)) k)
            end; reflexivity|].
  destruct (String.eqb_spec n "to") as [->|_];
    [rewrite Hh;
     repeat match goal with
            | |- context [String.eqb (lower (name h)) ?k] =>
                destruct (String.eqb (lower (name h)) k)
            end; reflexivity|].
  reflexivity.
Qed.

(** Headers with other names leave the value kept for a name. *)
Lemma read_headers_other (lower : string -> string) (n : string)
      (hs : list Header) :
  forall env,
    (forall h, In h hs -> header_named lower n h = false) ->
    envelope_value n (fold_left (read_header lower) hs env) =
    envelope_value n env.
Proof.
  induction hs as [|h hs IH]; intros env Hnone; simpl.
  - reflexivity.
  - rewrite IH by (intros h' Hh'; apply Hnone; now right).
    apply read_header_other. apply Hnone. now left.
Qed.

(** X20. Without a header of a given name among "from", "subject", "date"
    and "to", whatever the case of the letters of the header names, the
    loop over the headers keeps the value it started with: the default of
    the fetcher. *)
Theorem absent_header_keeps_default :
  forall (lower : string -> string) (n : string) (hs : list Header)
         (env : Envelope),
    (forall h, In h hs -> header_named lower n h = false) ->
    envelope_value n (fold_left (read_header lower) hs env) =
    envelope_value n env.
Proof.
  intros lower n hs env. apply read_headers_other.
Qed.

(** X21. With several headers of the same name, the last one wins: the
    value kept for "from", "subject", "date" or "to" is that of the last
    header whose name is that word in any case of letters. *)
Theorem last_header_wins :
  forall (lower : string -> string) (n : string) (pre post : list Header)
         (h : Header) (env : Envelope) (v0 : string),
    envelope_value n env = Some v0 ->
    header_named lower n h = true ->
    (forall h', In h' post -> header_named lower n h' = false) ->
    envelope_value n (fold_left (read_header lower) (pre ++ h :: post)%list env)
        =
    Some (value h).
Proof.
  intros lower n pre post h env v0 Hn Hh Hpost.
  rewrite fold_left_app. simpl.
  rewrite (read_headers_other lower n post _ Hpost).
  assert (exists v1, envelope_value n (fold_left (read_header lower) pre env) =
                     Some v1) as [v1 Hv1].
  { clear - Hn. unfold envelope_value in *.
    destruct (String.eqb n "from"); [eauto|].
    destruct (String.eqb n "subject"); [eauto|].
    destruct (String.eqb n "date"); [eauto|].
    destruct (String.eqb n "to"); [eauto | discriminate]. }
  exact (read_header_named lower n _ h v1 Hv1 Hh).
Qed.

Lemma absent_header_keeps_default_witness :
  envelope_value "date"
    (fold_left (read_header ascii_lower) two_senders unknown) =
  Some "Sat, 1 Jan 2000 00:00:00 +0000".
Proof.
  apply (absent_header_keeps_default ascii_lower "date" two_senders unknown).
  intros h [<-|[<-|[<-|[<-|[]]]]]; reflexivity.
Defined.

Lemma last_header_wins_witness :
  envelope_value "from"
    (fold_left (read_header ascii_lower) two_senders unknown) =
  Some "second@example.com".
Proof.
  apply (last_header_wins ascii_lower "from"
           [mkHeader "From" "first@example.com"; mkHeader "Subject" "Hello"]
           [mkHeader "X-Mailer" "none"]
           (mkHeader "FROM" "second@example.com") unknown "Unknown sender").
  - reflexivity.
  - reflexivity.
  - intros h' [<-|[]]. reflexivity.
Defined.

Section Service.

Variable lower : string -> string.
Variable messages_get : string -> result exn Message.
Variable parse : string -> option datetime.

(** The loop over the pages stops at once when the response has no page
    token or enough messages are there. *)
Lemma fetch_pages_stops (pages : list (result exn ListResponse))
      (results : ListResponse) (msgs : list string) (max_emails : Z) :
  nextPageToken results = None \/ max_emails <= Z.of_nat (List.length msgs) ->
  fetch_pages pages results msgs max_emails = Ok msgs.
Proof.
  intros H. destruct pages; simpl;
    (destruct (nextPageToken results); [|reflexivity]);
    (destruct H as [H|H]; [discriminate|]);
    (destruct (Z.ltb_spec (Z.of_nat (List.length msgs)) max_emails);
     [lia | reflexivity]).
Qed.

(** With a first response that is enough, [fetch_emails] is the loop over
    its messages up to the limit. *)
Lemma fetch_emails_first_page (results : ListResponse)
      (pages : list (result exn ListResponse)) (max_emails : Z) :
  nextPageToken results = None \/
  max_emails <= Z.of_nat (List.length (get_messages results)) ->
  fetch_emails lower messages_get parse (Ok results :: pages) max_emails =
  fetch_each lower messages_get parse
             (slice_to (get_messages results) max_emails).
Proof.
  intros H. unfold fetch_emails, bind.
  rewrite (fetch_pages_stops _ _ _ _ H). reflexivity.
Qed.

(** X22. No page is requested beyond need: when the first response has
    no page token, or holds at least [max_emails] messages, [fetch_emails]
    fetches the messages of that response up to the limit and asks for no
    further page, whatever the service would answer; with the limit 0 it
    returns the empty list without retrieving any message. *)
Theorem first_page_is_enough :
  forall (results : ListResponse) (pages : list (result exn ListResponse))
         (max_emails : Z),
    nextPageToken results = None \/
    max_emails <= Z.of_nat (List.length (get_messages results)) ->
    fetch_emails lower messages_get parse (Ok results :: pages) max_emails =
    fetch_each lower messages_get parse
               (slice_to (get_messages results) max_emails) /\
    (max_emails = 0 ->
     fetch_emails lower messages_get parse (Ok results :: pages) max_emails =
     Ok []).
Proof.
  intros results pages max_emails H.
  assert (fetch_emails lower messages_get parse (Ok results :: pages) max_emails
      =
          fetch_each lower messages_get parse
                     (slice_to (get_messages results) max_emails)) as Heq.
  { unfold fetch_emails, bind. rewrite (fetch_pages_stops _ _ _ _ H).
    reflexivity. }
  split; [exact Heq|].
  intros ->. rewrite Heq. reflexivity.
Qed.

(** X23. With a first response that holds at least [max_emails] messages,
    for a limit that is not negative, [fetch_emails] returns exactly
    [max_emails] emails when it returns. *)
Theorem full_page_gives_max_emails :
  forall (results : ListResponse) (pages : list (result exn ListResponse))
         (max_emails : Z) (emails : list Email),
    0 <= max_emails <= Z.of_nat (List.length (get_messages results)) ->
    fetch_emails lower messages_get parse (Ok results :: pages) max_emails =
    Ok emails ->
    Z.of_nat (List.length emails) = max_emails.
Proof.
  intros results pages max_emails emails [H0 Hmax] H.
  rewrite (fetch_emails_first_page results pages max_emails
             (or_intror Hmax)) in H. apply fetch_each_length in H. rewrite H.
  unfold slice_to. destruct (Z.leb_spec 0 max_emails); [|lia].
  rewrite length_firstn. lia.
Qed.

(** What [fetch_email] returns comes from the message that the service
    gave for the reference. *)
Lemma fetch_email_message (m : string) (email : Email) :
  fetch_email lower messages_get parse m = Ok email ->
  exists msg,
    messages_get m = Ok msg /\
    message_id email = id msg /\
    envelope_value "from" (fold_left (read_header lower) (headers (payload msg))
                                     unknown) = Some (sender email) /\
    parse (env_date (fold_left (read_header lower) (headers (payload msg))
        unknown))
    = Some (received_time email).
Proof.
  unfold fetch_email, bind. intros H.
  destruct (messages_get m) as [msg|]; [|discriminate].
  exists msg. split; [reflexivity|].
  destruct (parse _) as [received|] eqn:Hparse; [|discriminate].
  destruct (match parts (payload msg) with
            | Some ps => _
            | None => _
            end) as [message_body|]; [|discriminate].
  injection H as <-. simpl. auto.
Qed.

(** X24. The emails that [fetch_emails] builds follow the message
    references in their order: one email per reference, whose id is the id
    of the message that the service returned for that reference, whose
    sender is the value kept for "from" and whose received time is what
    the date text parses to. *)
Theorem fetched_emails_follow_references :
  forall (msgs : list string) (emails : list Email),
    fetch_each lower messages_get parse msgs = Ok emails ->
    Forall2 (fun m email =>
               exists msg,
                 messages_get m = Ok msg /\
                 message_id email = id msg /\
                 envelope_value "from"
                   (fold_left (read_header lower) (headers (payload msg))
                       unknown) =
                 Some (sender email) /\
                 parse (env_date
                          (fold_left (read_header lower) (headers (payload msg))
                                     unknown)) =
                 Some (received_time email))
            msgs emails.
Proof.
  induction msgs as [|m msgs IH]; intros emails H; simpl in H.
  - injection H as <-. constructor.
  - unfold bind in H.
    destruct (fetch_email lower messages_get parse m) as [email|] eqn:Hm;
      [|discriminate].
    destruct (fetch_each lower messages_get parse msgs) as [emails'|] eqn:Hrest;
      [|discriminate].
    injection H as <-. constructor.
    + now apply fetch_email_message.
    + now apply IH.
Qed.

Lemma fetch_each_raises (msgs : list string) (m : string) :
  In m msgs -> is_raise (fetch_email lower messages_get parse m) = true ->
  is_raise (fetch_each lower messages_get parse msgs) = true.
Proof.
  induction msgs as [|m0 msgs IH]; intros Hin Hbad; [destruct Hin|].
  simpl. unfold bind.
  destruct (fetch_email lower messages_get parse m0) as [email|] eqn:H0;
    [|reflexivity].
  destruct Hin as [->|Hin]; [rewrite H0 in Hbad; discriminate|].
  specialize (IH Hin Hbad).
  destruct (fetch_each lower messages_get parse msgs); [discriminate |
      reflexivity].
Qed.

(** X25. One message that cannot be turned into an email fails the whole
    fetch: if the retrieval of one of the messages that the loop over the
    pages has collected, and that is under the limit, raises, or its date
    does not parse, or its body has no data, [fetch_emails] raises and
    returns no email at all. *)
Theorem one_bad_message_fails_fetch :
  forall (results : ListResponse) (pages : list (result exn ListResponse))
         (msgs : list string) (max_emails : Z) (m : string),
    fetch_pages pages results (get_messages results) max_emails = Ok msgs ->
    In m (slice_to msgs max_emails) ->
    is_raise (fetch_email lower messages_get parse m) = true ->
    is_raise (fetch_emails lower messages_get parse (Ok results :: pages)
                           max_emails) = true.
Proof.
  intros results pages msgs max_emails m Hpages Hin Hbad.
  unfold fetch_emails, bind. rewrite Hpages.
  exact (fetch_each_raises _ m Hin Hbad).
Qed.

(** X26. Paging keeps the messages in the order of the pages: when the
    loop over the pages returns, its result is the messages it started
    with followed by the messages of the pages it requested, which are the
    first pages of the service, in their order; and each of these pages
    was requested while fewer than [max_emails] messages were there. *)
Theorem paging_appends_pages :
  forall (pages : list (result exn ListResponse)) (results : ListResponse)
         (msgs out : list string) (max_emails : Z),
    fetch_pages pages results msgs max_emails = Ok out ->
    exists consumed : list ListResponse,
      firstn (List.length consumed) pages = map Ok consumed /\
      out = (msgs ++ flat_map get_messages consumed)%list /\
      (forall init last,
          consumed = (init ++ [last])%list ->
          Z.of_nat (List.length (msgs ++ flat_map get_messages init)%list) <
          max_emails).
Proof.
  induction pages as [|page pages IH]; intros results msgs out max_emails H;
    simpl in H.
  - exists []. destruct (nextPageToken results);
      [destruct (Z.of_nat (List.length msgs) <? max_emails);
       [discriminate|] |];
      injection H as <-; (split; [reflexivity|]);
      (split; [now rewrite app_nil_r|]);
      intros init last Hc; destruct init; discriminate.
  - destruct (nextPageToken results) as [token|].
    + destruct (Z.ltb_spec (Z.of_nat (List.length msgs)) max_emails)
        as [Hshort|Hfull].
      * unfold bind in H. destruct page as [results'|]; [|discriminate].
        destruct (IH _ _ _ _ H) as [consumed [Hpre [Hout Hwhile]]].
        exists (results' :: consumed). simpl. split; [now rewrite Hpre|].
        split; [now rewrite Hout, <- app_assoc|].
        intros init last Hc. destruct init as [|r0 init]; simpl in *.
        -- now rewrite app_nil_r.
        -- injection Hc as <- Hc. specialize (Hwhile init last Hc).
           now rewrite <- app_assoc in Hwhile.
      * injection H as <-. exists []. split; [reflexivity|].
        split; [now rewrite app_nil_r|].
        intros init last Hc; destruct init; discriminate.
    + injection H as <-. exists []. split; [reflexivity|].
      split; [now rewrite app_nil_r|].
      intros init last Hc; destruct init; discriminate.
Qed.

End Service.

Lemma first_page_is_enough_witness :
  fetch_emails ascii_lower sample_messages_get sample_parse
               (Ok (mkListResponse (Some ["msg1"]) (Some "token1"))
                :: [Raise (HttpError "backendError")]) 1 =
  fetch_each ascii_lower sample_messages_get sample_parse
             (slice_to (get_messages
                          (mkListResponse (Some ["msg1"]) (Some "token1"))) 1).
Proof.
  apply (first_page_is_enough ascii_lower sample_messages_get sample_parse
           (mkListResponse (Some ["msg1"]) (Some "token1"))
           [Raise (HttpError "backendError")] 1).
  right. simpl. lia.
Defined.

Lemma full_page_gives_max_emails_witness :
  Z.of_nat (List.length
              [ mkEmail "msg0" "sender@example.com" "recipient@example.com"
                        "Test message body" (Aware 1672574400000000)
                        "Test Subject";
                mkEmail "msg1" "sender@example.com" "recipient@example.com"
                        "Test message body" (Aware 1672574400000000)
                        "Test Subject" ]) = 2.
Proof.
  apply (full_page_gives_max_emails ascii_lower sample_messages_get
           sample_parse
           (mkListResponse (Some ["msg0"; "msg1"; "msg2"]) None) [] 2).
  - simpl. lia.
  - reflexivity.
Defined.

Lemma fetched_emails_follow_references_witness :
  Forall2 (fun m email =>
             exists msg,
               sample_messages_get m = Ok msg /\
               message_id email = id msg /\
               envelope_value "from"
                 (fold_left (read_header ascii_lower) (headers (payload msg))
                            unknown) =
               Some (sender email) /\
               sample_parse
                 (env_date (fold_left (read_header ascii_lower)
                                      (headers (payload msg)) unknown)) =
               Some (received_time email))
          ["msg7"]
          [ mkEmail "msg7" "sender@example.com" "recipient@example.com"
                    "Test message body" (Aware 1672574400000000)
                    "Test Subject" ].
Proof.
  apply (fetched_emails_follow_references ascii_lower sample_messages_get
           sample_parse
           ["msg7"]).
  reflexivity.
Defined.

Lemma one_bad_message_fails_fetch_witness :
  is_raise (fetch_emails ascii_lower failing_messages_get sample_parse
              (Ok (mkListResponse (Some ["msg0"]) (Some "token1"))
               :: [Ok (mkListResponse (Some ["msg1"; "msg2"]) None)]) 2) =
  true.
Proof.
  apply (one_bad_message_fails_fetch ascii_lower failing_messages_get
           sample_parse (mkListResponse (Some ["msg0"]) (Some "token1"))
           [Ok (mkListResponse (Some ["msg1"; "msg2"]) None)]
           ["msg0"; "msg1"; "msg2"] 2 "msg1").
  - reflexivity.
  - simpl. auto.
  - reflexivity.
Defined.

Lemma paging_appends_pages_witness :
  exists consumed : list ListResponse,
    firstn (List.length consumed)
           [@Ok exn ListResponse (mkListResponse (Some ["msg2"]) None)] =
    map Ok consumed /\
    ["msg1"; "msg2"] = (["msg1"] ++ flat_map get_messages consumed)%list /\
    (forall init last,
        consumed = (init ++ [last])%list ->
        Z.of_nat (List.length (["msg1"] ++ flat_map get_messages init)%list)
        < 2).
Proof.
  apply (paging_appends_pages
           [Ok (mkListResponse (Some ["msg2"]) None)]
           (mkListResponse (Some ["msg1"]) (Some "token1"))
           ["msg1"] ["msg1"; "msg2"] 2).
  reflexivity.
Defined.

End Mailbox.

(** ** The store: what the fetcher saves and the rules processor reads *)

Module Store.
Import Py Notions.

Lemma find_app {A} (f : A -> bool) (l l' : list A) :
  find f (l ++ l') =
  match find f l with
  | Some x => Some x
  | None => find f l'
  end.
Proof.
  induction l as [|a l IH]; simpl; [reflexivity|].
  destruct (f a); [reflexivity | exact IH].
Qed.

Lemma find_filter {A} (f g : A -> bool) (l : list A) :
  (forall x, f x = true -> g x = true) ->
  find f (filter g l) = find f l.
Proof.
  intros H. induction l as [|a l IH]; simpl; [reflexivity|].
  destruct (g a) eqn:Hg; simpl.
  - destruct (f a); [reflexivity | exact IH].
  - destruct (f a) eqn:Hf; [|exact IH].
    rewrite (H a Hf) in Hg. discriminate.
Qed.

Lemma find_filter_negb {A} (f : A -> bool) (l : list A) :
  find f (filter (fun x => negb (f x)) l) = None.
Proof.
  induction l as [|a l IH]; simpl; [reflexivity|].
  destruct (f a) eqn:Hf; simpl; [exact IH|]. now rewrite Hf.
Qed.

Lemma filter_filter_negb {A} (f : A -> bool) (l : list A) :
  filter f (filter (fun x => negb (f x)) l) = [].
Proof.
  induction l as [|a l IH]; simpl; [reflexivity|].
  destruct (f a) eqn:Hf; simpl; [exact IH|]. now rewrite Hf.
Qed.

Lemma filter_filter_implied {A} (f g : A -> bool) (l : list A) :
  (forall x, f x = true -> g x = true) ->
  filter f (filter g l) = filter f l.
Proof.
  intros H. induction l as [|a l IH]; simpl; [reflexivity|].
  destruct (g a) eqn:Hg; simpl.
  - destruct (f a); [now rewrite IH | exact IH].
  - destruct (f a) eqn:Hf; [|exact IH].
    rewrite (H a Hf) in Hg. discriminate.
Qed.

Lemma filter_keeps_all {A} (f : A -> bool) (l : list A) :
  (forall x, In x l -> f x = true) -> filter f l = l.
Proof.
  intros H. induction l as [|a l IH]; simpl; [reflexivity|].
  rewrite (H a) by now left. f_equal. apply IH.
  intros x Hx. apply H. now right.
Qed.

Section Rows.

Variable isoformat : datetime -> string.

(** A row clashes with the row of an email exactly when its key is the
    message id of the email. *)
Lemma clash_row_of (e : GmailFetch.Email) (r : Sqlite.row) :
  Sqlite.clash (GmailFetch.row_of isoformat e) r =
  Sqlite.clash [Sqlite.Text (GmailFetch.message_id e)] r.
Proof. destruct r; reflexivity. Qed.

Lemma clash_id_row_of (id : string) (e : GmailFetch.Email) :
  Sqlite.clash [Sqlite.Text id] (GmailFetch.row_of isoformat e) =
  String.eqb id (GmailFetch.message_id e).
Proof. reflexivity. Qed.

(** Two keys that clash with the same row are the same. *)
Lemma clash_same_id (id id' : string) (r : Sqlite.row) :
  Sqlite.clash [Sqlite.Text id] r = true ->
  Sqlite.clash [Sqlite.Text id'] r = true -> id = id'.
Proof.
  destruct r as [|[| | |k|] r]; simpl; try discriminate.
  intros H H'. apply String.eqb_eq in H, H'. congruence.
Qed.

Lemma lookup_insert_same (e : GmailFetch.Email) (t : Sqlite.table) :
  lookup (GmailFetch.message_id e)
         (Sqlite.insert_or_replace (GmailFetch.row_of isoformat e) t) =
  Some (GmailFetch.row_of isoformat e).
Proof.
  unfold lookup, Sqlite.insert_or_replace. rewrite find_app.
  rewrite (filter_ext _ (fun r => negb (Sqlite.clash
                                         [Sqlite.Text (GmailFetch.message_id e)]
                                         r)))
    by (intros r; now rewrite clash_row_of).
  rewrite find_filter_negb. simpl. now rewrite String.eqb_refl.
Qed.

Lemma lookup_insert_other (id : string) (e : GmailFetch.Email)
      (t : Sqlite.table) :
  GmailFetch.message_id e <> id ->
  lookup id (Sqlite.insert_or_replace (GmailFetch.row_of isoformat e) t) =
  lookup id t.
Proof.
  intros Hid. unfold lookup, Sqlite.insert_or_replace. rewrite find_app.
  rewrite find_filter.
  - destruct (find _ t); [reflexivity|]. simpl.
    destruct (String.eqb_spec id (GmailFetch.message_id e)) as [->|_];
      [contradiction | reflexivity].
  - intros r Hr. rewrite clash_row_of. apply negb_true_iff.
    destruct (Sqlite.clash [Sqlite.Text (GmailFetch.message_id e)] r) eqn:Hc;
      [|reflexivity].
    exfalso. apply Hid. exact (clash_same_id _ _ r Hc Hr).
Qed.

(** Saving emails none of which has the id leaves the row of that id. *)
Lemma fold_insert_other (id : string) (emails : list GmailFetch.Email) :
  forall t : Sqlite.table,
    (forall e, In e emails -> GmailFetch.message_id e <> id) ->
    lookup id (fold_left
                 (fun t e =>
                    Sqlite.insert_or_replace (GmailFetch.row_of isoformat e) t)
                 emails t) = lookup id t.
Proof.
  induction emails as [|e emails IH]; intros t H; simpl; [reflexivity|].
  rewrite IH by (intros e' He'; apply H; now right).
  apply lookup_insert_other. apply H. now left.
Qed.

(** X27. An id that no saved email has keeps its row: [save_to_sqlite]
    changes only the rows of the message ids it is given. *)
Theorem other_rows_are_kept :
  forall (emails : list GmailFetch.Email) (db : option Sqlite.table)
         (id : string),
    (forall e, In e emails -> GmailFetch.message_id e <> id) ->
    lookup id (GmailFetch.save_to_sqlite isoformat emails db) =
    lookup id (match db with Some t => t | None => [] end).
Proof.
  intros emails db id H. unfold GmailFetch.save_to_sqlite.
  now apply fold_insert_other.
Qed.

(** X28. The last saved email of an id is the one that is found: after
    [save_to_sqlite], the row of a message id is the row of the last email
    of the list with that id, whatever the table held and whatever emails
    of that id came before. *)
Theorem last_saved_email_is_found :
  forall (pre post : list GmailFetch.Email) (e : GmailFetch.Email)
         (db : option Sqlite.table),
    (forall e', In e' post ->
                GmailFetch.message_id e' <> GmailFetch.message_id e) ->
    lookup (GmailFetch.message_id e)
           (GmailFetch.save_to_sqlite isoformat (pre ++ e :: post)%list db) =
    Some (GmailFetch.row_of isoformat e).
Proof.
  intros pre post e db Hpost. unfold GmailFetch.save_to_sqlite.
  rewrite fold_left_app. simpl.
  rewrite fold_insert_other by exact Hpost.
  apply lookup_insert_same.
Qed.

Lemma rows_with_insert_same (e : GmailFetch.Email) (t : Sqlite.table) :
  filter (Sqlite.clash [Sqlite.Text (GmailFetch.message_id e)])
         (Sqlite.insert_or_replace (GmailFetch.row_of isoformat e) t) =
  [GmailFetch.row_of isoformat e].
Proof.
  unfold Sqlite.insert_or_replace. rewrite filter_app.
  rewrite (filter_ext (fun r' => negb (Sqlite.clash
                                         (GmailFetch.row_of isoformat e) r'))
                      (fun r => negb (Sqlite.clash
                                        [Sqlite.Text (GmailFetch.message_id e)]
                                        r)))
    by (intros r; now rewrite clash_row_of).
  rewrite filter_filter_negb. simpl. now rewrite String.eqb_refl.
Qed.

Lemma rows_with_insert_other (id : string) (e : GmailFetch.Email)
      (t : Sqlite.table) :
  GmailFetch.message_id e <> id ->
  filter (Sqlite.clash [Sqlite.Text id])
         (Sqlite.insert_or_replace (GmailFetch.row_of isoformat e) t) =
  filter (Sqlite.clash [Sqlite.Text id]) t.
Proof.
  intros Hid. unfold Sqlite.insert_or_replace. rewrite filter_app.
  rewrite filter_filter_implied.
  - cbn [filter]. rewrite clash_id_row_of.
    destruct (String.eqb_spec id (GmailFetch.message_id e)) as [->|_];
      [contradiction | apply app_nil_r].
  - intros r Hr. rewrite clash_row_of. apply negb_true_iff.
    destruct (Sqlite.clash [Sqlite.Text (GmailFetch.message_id e)] r) eqn:Hc;
      [|reflexivity].
    exfalso. apply Hid. exact (clash_same_id _ _ r Hc Hr).
Qed.

(** X29. Saving never duplicates a message: after [save_to_sqlite], the
    table has exactly one row for the message id of each saved email,
    however often that id occurs in the list and whatever the table held
    before. *)
Theorem saved_id_has_one_row :
  forall (emails : list GmailFetch.Email) (db : option Sqlite.table)
         (e : GmailFetch.Email),
    In e emails ->
    List.length
      (filter (Sqlite.clash [Sqlite.Text (GmailFetch.message_id e)])
              (GmailFetch.save_to_sqlite isoformat emails db)) = 1%nat.
Proof.
  intros emails db e. unfold GmailFetch.save_to_sqlite.
  generalize (match db with Some t => t | None => [] end).
  induction emails as [|e0 emails IH] using rev_ind; intros t Hin;
    [destruct Hin|].
  rewrite fold_left_app. simpl.
  destruct (String.eqb_spec (GmailFetch.message_id e0)
                            (GmailFetch.message_id e)) as [Heq|Hne].
  - rewrite <- Heq, rows_with_insert_same. reflexivity.
  - rewrite rows_with_insert_other by exact Hne.
    apply IH. apply in_app_or in Hin as [Hin|[->|[]]];
      [exact Hin | contradiction].
Qed.

(** Saving emails with distinct ids, none of which is in the table,
    appends their rows in order. *)
Lemma fold_insert_distinct (emails : list GmailFetch.Email) :
  forall t : Sqlite.table,
    NoDup (map GmailFetch.message_id emails) ->
    (forall e r, In e emails -> In r t ->
                 Sqlite.clash (GmailFetch.row_of isoformat e) r = false) ->
    fold_left (fun t e =>
                 Sqlite.insert_or_replace (GmailFetch.row_of isoformat e) t)
              emails t =
    (t ++ map (GmailFetch.row_of isoformat) emails)%list.
Proof.
  induction emails as [|e emails IH]; intros t Hnodup Hfresh; simpl.
  - now rewrite app_nil_r.
  - inversion Hnodup as [|id ids Hnotin Hnodup']; subst.
    unfold Sqlite.insert_or_replace at 2.
    rewrite filter_keeps_all
      by (intros r Hr; apply negb_true_iff, Hfresh; [now left | exact Hr]).
    rewrite IH; [now rewrite <- app_assoc | exact Hnodup' |].
    intros e' r He' Hr. apply in_app_or in Hr as [Hr|[<-|[]]].
    + apply Hfresh; [now right | exact Hr].
    + rewrite clash_row_of, clash_id_row_of.
      apply String.eqb_neq. intros Heq. apply Hnotin. rewrite <- Heq.
      now apply in_map.
Qed.

Lemma get_emails_from_db_saved (emails : list GmailFetch.Email) :
  GmailRulesProcessor.get_emails_from_db
    (map (GmailFetch.row_of isoformat) emails) =
  Ok (map (stored isoformat) emails).
Proof.
  induction emails as [|e emails IH]; simpl; [reflexivity|].
  unfold bind. rewrite IH. reflexivity.
Qed.

(** X30. What the fetcher saves is what the rules processor reads: on a
    database without table, after [save_to_sqlite] of emails with distinct
    message ids, [get_emails_from_db] returns these emails in their order,
    each with its five texts and with the ISO text of its received time. *)
Theorem saved_emails_are_read_back :
  forall emails : list GmailFetch.Email,
    NoDup (map GmailFetch.message_id emails) ->
    GmailRulesProcessor.get_emails_from_db
      (GmailFetch.save_to_sqlite isoformat emails None) =
    Ok (map (stored isoformat) emails).
Proof.
  intros emails Hnodup. unfold GmailFetch.save_to_sqlite.
  rewrite fold_insert_distinct; [| exact Hnodup | intros e r _ []].
  simpl. apply get_emails_from_db_saved.
Qed.

End Rows.

Lemma other_rows_are_kept_witness :
  lookup "123" (GmailFetch.save_to_sqlite sample_isoformat
                  [fetched_a; fetched_b] (Some [sample_row])) =
  lookup "123" [sample_row].
Proof.
  apply (other_rows_are_kept sample_isoformat [fetched_a; fetched_b]
           (Some [sample_row]) "123").
  intros e [<-|[<-|[]]]; discriminate.
Defined.

Lemma last_saved_email_is_found_witness :
  lookup "msg1" (GmailFetch.save_to_sqlite sample_isoformat
                   [fetched_a; fetched_a_again; fetched_b] None) =
  Some (GmailFetch.row_of sample_isoformat fetched_a_again).
Proof.
  apply (last_saved_email_is_found sample_isoformat [fetched_a] [fetched_b]
           fetched_a_again None).
  intros e' [<-|[]]. discriminate.
Defined.

Lemma saved_id_has_one_row_witness :
  List.length
    (filter (Sqlite.clash [Sqlite.Text "msg1"])
            (GmailFetch.save_to_sqlite sample_isoformat
               [fetched_a; fetched_a_again; fetched_b] None)) = 1%nat.
Proof.
  apply (saved_id_has_one_row sample_isoformat
           [fetched_a; fetched_a_again; fetched_b] None fetched_a).
  simpl. auto.
Defined.

Lemma saved_emails_are_read_back_witness :
  GmailRulesProcessor.get_emails_from_db
    (GmailFetch.save_to_sqlite sample_isoformat [fetched_a; fetched_b] None) =
  Ok [stored sample_isoformat fetched_a; stored sample_isoformat fetched_b].
Proof.
  apply (saved_emails_are_read_back sample_isoformat [fetched_a; fetched_b]).
  repeat constructor; simpl; intuition discriminate.
Defined.

End Store.
